(** * git_sync_runner.py: the RebasedCode Git Sync launcher

    A shallow embedding of [src/git_sync_runner.py] and the properties of
    its two log files, its exit status and its handling of the child
    process.

    The script is straight-line code around one [try]/[except Exception]
    block.  It is embedded in a small monad that threads the state of the
    outside world (files, clock, process table, events in time order) and
    propagates Python exceptions; [sys.exit] raises [SystemExit], which the
    [except Exception] clause does not intercept.

    What the surroundings do is read from an [Env] value, one per run:
    - whether the launcher can resolve its own path;
    - whether [open(path, 'a')] is refused (a directory at the path,
      missing permissions);
    - the encoding of the locale, in which text-mode files are written:
      a write raises [UnicodeEncodeError] for text the encoding cannot
      express, and other encodings than UTF-8 put other bytes in the file;
    - whether a [print] raises, and whether the interpreter can flush its
      standard streams when it exits (if not, it ends with status 120);
    - what the relabelling pipeline of line 20 writes to the standard output
      it inherits;
    - whether the spawn or the wait is cut short by an exception;
    - what the sync script does once bash runs it, and what bash does when
      the script is not there: the child runs for ever, or it exits and
      both pipes reach end-of-file, or it exits while a process it started
      keeps a pipe open, in which case [communicate()] does not return.

    Conventions of the model:
    - a Python [str] is a [string] of bytes, the UTF-8 form of its text;
      bytes that are not UTF-8 stand for the surrogate escapes of a file
      name that is not text; [bytes] values are [string]s too;
    - [files] is the file system as the launcher's own calls leave it;
      what the child does to files is not part of the model, and
      statements about files are statements about what the launcher adds;
    - text that a file object has accepted reaches the file: the [with]
      block closes and hence flushes the file on every exit, exceptional
      or not, and the file system takes what is written (no full disk, no
      I/O error);
    - distinct paths are distinct files (no links between the logs);
    - signals reach the launcher only while it waits for the child;
    - an [EvPrint] event is text handed to [sys.stdout]; when it reaches
      the terminal or the pipe depends on buffering. *)

From Stdlib Require Import ZArith NArith Ascii String List Lia.
From stdpp Require Import base option strings gmap list pretty.

Local Open Scope string_scope.

(** ** Characters that cannot be written inside a string literal *)

Definition nl : string := String "010"%char "".
Definition dquote : string := String "034"%char "".

(** ** Python [str] helpers *)

Definition is_slash (c : ascii) : bool := Ascii.eqb c "/"%char.

(** [s.startswith('/')] *)
Definition startswith_slash (s : string) : bool :=
  match s with
  | String c _ => is_slash c
  | EmptyString => false
  end.

(** [s.endswith('/')] *)
Fixpoint endswith_slash (s : string) : bool :=
  match s with
  | EmptyString => false
  | String c EmptyString => is_slash c
  | String _ r => endswith_slash r
  end.

(** ['/' in s] *)
Fixpoint has_slash (s : string) : bool :=
  match s with
  | EmptyString => false
  | String c r => is_slash c || has_slash r
  end.

(** [s == '/' * len(s)] *)
Fixpoint all_slashes (s : string) : bool :=
  match s with
  | EmptyString => true
  | String c r => is_slash c && all_slashes r
  end.

(** [s[: s.rfind('/') + 1]]: everything up to and including the last
    slash, the empty string when there is none. *)
Fixpoint upto_last_slash (s : string) : string :=
  match s with
  | EmptyString => EmptyString
  | String c r => if has_slash s then String c (upto_last_slash r) else EmptyString
  end.

Definition is_empty (s : string) : bool :=
  match s with EmptyString => true | _ => false end.

(** [s.rstrip('/')] *)
Fixpoint rstrip_slash (s : string) : string :=
  match s with
  | EmptyString => EmptyString
  | String c r =>
      let r' := rstrip_slash r in
      if is_slash c && is_empty r' then EmptyString else String c r'
  end.

(** ** [os.path] (posixpath) *)

(** [os.path.dirname(p)] *)
Definition dirname (p : string) : string :=
  let head := upto_last_slash p in
  if negb (is_empty head) && negb (all_slashes head)
  then rstrip_slash head
  else head.

(** [os.path.join(a, b)] *)
Definition join (a b : string) : string :=
  if startswith_slash b then b
  else if is_empty a || endswith_slash a then a +:+ b
  else a +:+ "/" +:+ b.

(** ** [time.strftime] *)

(** The fields of [time.localtime()] that the format string reads. *)
Record struct_time := {
  tm_year : N;
  tm_mon : N;
  tm_mday : N;
  tm_hour : N;
  tm_min : N;
  tm_sec : N
}.

(** Two decimal digits, zero padded ([%m], [%d], [%H], [%M], [%S]). *)
Definition pad2 (n : N) : string :=
  if (n <? 10)%N then "0" +:+ pretty n else pretty n.

Definition directive (d : ascii) (t : struct_time) : string :=
  if Ascii.eqb d "Y"%char then pretty (tm_year t)
  else if Ascii.eqb d "m"%char then pad2 (tm_mon t)
  else if Ascii.eqb d "d"%char then pad2 (tm_mday t)
  else if Ascii.eqb d "H"%char then pad2 (tm_hour t)
  else if Ascii.eqb d "M"%char then pad2 (tm_min t)
  else if Ascii.eqb d "S"%char then pad2 (tm_sec t)
  else String "%"%char (String d EmptyString).

Fixpoint strftime_at (fmt : string) (t : struct_time) : string :=
  match fmt with
  | EmptyString => EmptyString
  | String c rest =>
      if Ascii.eqb c "%"%char then
        match rest with
        | String d rest' => directive d t +:+ strftime_at rest' t
        | EmptyString => String c EmptyString
        end
      else String c (strftime_at rest t)
  end.

(** The one format string of the script. *)
Definition TIME_FORMAT : string := "%Y-%m-%d %H:%M:%S".

(** A reading of the clock as the format expects it: a four-digit year and
    fields in the ranges of [struct_time]. *)
Definition tm_ok (t : struct_time) : bool :=
  (1000 <=? tm_year t)%N && (tm_year t <=? 9999)%N &&
  (1 <=? tm_mon t)%N && (tm_mon t <=? 12)%N &&
  (1 <=? tm_mday t)%N && (tm_mday t <=? 31)%N &&
  (tm_hour t <=? 23)%N && (tm_min t <=? 59)%N && (tm_sec t <=? 61)%N.

(** ** Recognising [YYYY-MM-DD HH:MM:SS] *)

Definition is_digit (c : ascii) : bool :=
  let n := N_of_ascii c in (48 <=? n)%N && (n <=? 57)%N.

(** A pattern is a string over [d] (any decimal digit) and literal
    characters; [match_prefix pat s] returns what follows the pattern. *)
Fixpoint match_prefix (pat s : string) : option string :=
  match pat with
  | EmptyString => Some s
  | String p pat' =>
      match s with
      | EmptyString => None
      | String c s' =>
          if (if Ascii.eqb p "d"%char then is_digit c else Ascii.eqb p c)
          then match_prefix pat' s'
          else None
      end
  end.

Definition TIMESTAMP_PATTERN : string := "dddd-dd-dd dd:dd:dd".

(** [s] is exactly a timestamp. *)
Definition is_timestamp (s : string) : bool :=
  match match_prefix TIMESTAMP_PATTERN s with
  | Some EmptyString => true
  | _ => false
  end.

(** [l] has the shape [YYYY-MM-DD HH:MM:SS: <message>]. *)
Definition timestamped (l : string) : bool :=
  match match_prefix (TIMESTAMP_PATTERN +:+ ": ") l with
  | Some _ => true
  | None => false
  end.

(** ** Lines of a text *)

Definition is_nl (c : ascii) : bool := Ascii.eqb c "010"%char.

(** Number of line terminators in a text: the number of lines a file
    gains when the text is appended to it. *)
Fixpoint count_nl (s : string) : nat :=
  match s with
  | EmptyString => 0
  | String c r => (if is_nl c then 1 else 0) + count_nl r
  end.

(** The newline-terminated lines of a text, without their terminators
    (a trailing unterminated piece is a line too). *)
Fixpoint lines_from (cur : string) (s : string) : list string :=
  match s with
  | EmptyString => if is_empty cur then [] else [cur]
  | String c r =>
      if is_nl c then cur :: lines_from EmptyString r
      else lines_from (cur +:+ String c EmptyString) r
  end.

Definition lines (s : string) : list string := lines_from EmptyString s.

(** [sub in s] *)
Fixpoint contains (sub s : string) : bool :=
  String.prefix sub s ||
  match s with
  | EmptyString => false
  | String _ r => contains sub r
  end.

(** ** [bytes.decode()] (strict UTF-8) *)

Definition byte_in (lo hi : N) (c : ascii) : bool :=
  let n := N_of_ascii c in (lo <=? n)%N && (n <=? hi)%N.

Definition is_cont (c : ascii) : bool := byte_in 128 191 c.

(** Well-formed UTF-8: no overlong forms, no surrogates, nothing above
    U+10FFFF. *)
Fixpoint utf8_valid (s : string) : bool :=
  match s with
  | EmptyString => true
  | String b0 r0 =>
      if byte_in 0 127 b0 then utf8_valid r0
      else if byte_in 194 223 b0 then
        match r0 with
        | String b1 r1 => is_cont b1 && utf8_valid r1
        | _ => false
        end
      else if byte_in 224 239 b0 then
        match r0 with
        | String b1 (String b2 r2) =>
            (if byte_in 224 224 b0 then byte_in 160 191 b1
             else if byte_in 237 237 b0 then byte_in 128 159 b1
             else is_cont b1)
            && is_cont b2 && utf8_valid r2
        | _ => false
        end
      else if byte_in 240 244 b0 then
        match r0 with
        | String b1 (String b2 (String b3 r3)) =>
            (if byte_in 240 240 b0 then byte_in 144 191 b1
             else if byte_in 244 244 b0 then byte_in 128 143 b1
             else is_cont b1)
            && is_cont b2 && is_cont b3 && utf8_valid r3
        | _ => false
        end
      else false
  end.

(** Every byte is below 128. *)
Fixpoint is_ascii (s : string) : bool :=
  match s with
  | EmptyString => true
  | String c r => byte_in 0 127 c && is_ascii r
  end.

(** ** [str.encode] in the encoding of the locale *)

(** The encodings a locale is taken to have. *)
Inductive codec := UTF8 | ASCII | Latin1.

(** The Latin-1 byte of the code point U+0080..U+00FF whose UTF-8 form is
    [b0 b1]. *)
Definition latin1_byte (b0 b1 : ascii) : ascii :=
  if byte_in 194 194 b0 then b1 else ascii_of_N (N_of_ascii b1 + 64).

Fixpoint encode_latin1 (s : string) : option string :=
  match s with
  | EmptyString => Some EmptyString
  | String b0 r0 =>
      if byte_in 0 127 b0 then String b0 <$> encode_latin1 r0
      else if byte_in 194 195 b0 then
        match r0 with
        | String b1 r1 =>
            if is_cont b1 then String (latin1_byte b0 b1) <$> encode_latin1 r1
            else None
        | EmptyString => None
        end
      else None
  end.

(** [text.encode(encoding)] with the strict error handler: the bytes, or
    [None] where Python raises [UnicodeEncodeError]. *)
Definition encode (c : codec) (text : string) : option string :=
  match c with
  | UTF8 => if utf8_valid text then Some text else None
  | ASCII => if is_ascii text then Some text else None
  | Latin1 => encode_latin1 text
  end.

(** ** Exceptions and outcomes *)

(** The three kinds of exception the script can meet.  [PyException] stands
    for any instance of [Exception] and carries [str(e)];
    [PyBaseException] for one that is not ([KeyboardInterrupt] during the
    wait, say); [SystemExit] is what [sys.exit] raises. *)
Inductive exn :=
  | SystemExit (code : Z)
  | PyException (descr : string)
  | PyBaseException (descr : string).

(** What a library call can raise: anything but [SystemExit], which only
    [sys.exit] raises. *)
Inductive raised :=
  | AnException (descr : string)
  | ABaseException (descr : string).

Definition exn_of (r : raised) : exn :=
  match r with
  | AnException d => PyException d
  | ABaseException d => PyBaseException d
  end.

Inductive result (A : Type) :=
  | Ok (a : A)
  | Raise (e : exn)
  | Diverge.
Arguments Ok {A} a.
Arguments Raise {A} e.
Arguments Diverge {A}.

(** What the child does once started, as [communicate()] sees it:
    - it runs for ever;
    - it exits with status [rc] and both pipes reach end-of-file, having
      carried [out] and [err];
    - it exits with status [rc], but a process it started still holds a
      pipe open and never closes it. *)
Inductive child_outcome :=
  | Forever
  | Exits (out err : string) (rc : Z)
  | ExitsHolding (rc : Z).

(** The [subprocess.Popen] object. *)
Record process := {
  args : list string;
  returncode : option Z
}.

(** What the launcher does to the outside world, in time order:
    - [EvSystem]: a command handed to [os.system];
    - [EvInherited]: what that command wrote to the standard output it
      inherits from the launcher;
    - [EvOpen]: a file opened for append;
    - [EvWrite]: a text accepted by [f.write];
    - [EvPrint]: a text handed to [sys.stdout] by [print];
    - [EvSpawn]: a child started by [subprocess.Popen]. *)
Inductive event :=
  | EvSystem (cmd : string)
  | EvInherited (text : string)
  | EvOpen (path : string)
  | EvWrite (path text : string)
  | EvPrint (text : string)
  | EvSpawn (argv : list string).

Record World := {
  environ : gmap string string;
  (** the bytes of each file *)
  files : gmap string string;
  (** how often the clock has been read *)
  ticks : nat;
  (** how often [open] has been called *)
  opens : nat;
  proc : option process;
  trace : list event
}.

(** What the run finds around it. *)
Record Env := {
  (** the value of [os.path.abspath(__file__)], or the exception it raises *)
  abspath_file : raised + string;
  getpid : N;
  (** the k-th reading of the local clock *)
  localtime : nat -> struct_time;
  (** what a command run by [os.system] writes to the standard output *)
  system_output : string -> string;
  (** [str(e)] of the [OSError] with which the k-th [open] of the run
      fails, when it is an [open(path, 'a')] *)
  open_error : nat -> string -> option string;
  (** the encoding of text files *)
  locale : codec;
  (** [str(e)] of the [UnicodeEncodeError] for a text the locale cannot
      encode *)
  encode_error : string -> string;
  (** what [print] raises for a text (the stream is closed, or cannot
      encode the text) *)
  print_error : string -> option raised;
  (** a failure of fork or exec other than a missing executable *)
  spawn_error : option raised;
  (** what the sync script does when bash interprets it *)
  script_outcome : child_outcome;
  (** what bash does when the file it is to interpret is missing *)
  bash_without_script : string -> child_outcome;
  (** an exception raised in the launcher while it waits *)
  wait_interrupt : option raised;
  (** [str(e)] of the [UnicodeDecodeError] for undecodable bytes *)
  decode_error : string -> string;
  (** the interpreter cannot flush its standard streams when it exits *)
  exit_flush_fails : bool
}.

(** ** The monad of the script *)

Definition M (A : Type) : Type := Env -> World -> result A * World.

Definition ret {A} (a : A) : M A := fun _ w => (Ok a, w).

Definition bind {A B} (m : M A) (k : A -> M B) : M B :=
  fun env w =>
    match m env w with
    | (Ok a, w') => k a env w'
    | (Raise e, w') => (Raise e, w')
    | (Diverge, w') => (Diverge, w')
    end.

Definition raise {A} (e : exn) : M A := fun _ w => (Raise e, w).

Declare Scope py_scope.
Delimit Scope py_scope with py.
Notation "x <- m ;; k" := (bind m (fun x => k))
  (at level 100, m at next level, right associativity) : py_scope.
Notation "m ;; k" := (bind m (fun _ => k))
  (at level 100, right associativity) : py_scope.
Local Open Scope py_scope.

(** [try: body / except Exception as e: handler(str(e))].  Only instances
    of [Exception] reach the handler; [SystemExit] and the other
    [BaseException]s pass through. *)
Definition try_except_Exception {A} (body : M A) (handler : string -> M A) : M A :=
  fun env w =>
    match body env w with
    | (Raise (PyException d), w') => handler d env w'
    | other => other
    end.

(** ** Changes of the world *)

Definition content (fs : gmap string string) (path : string) : string :=
  default EmptyString (fs !! path).

(** [os.environ[k] = v] has run. *)
Definition with_environ (k v : string) (w : World) : World :=
  {| environ := <[k := v]> (environ w); files := files w;
     ticks := ticks w; opens := opens w; proc := proc w; trace := trace w |}.

Definition record_event (ev : event) (w : World) : World :=
  {| environ := environ w; files := files w; ticks := ticks w;
     opens := opens w; proc := proc w; trace := trace w ++ [ev] |}.

(** The clock has been read. *)
Definition tick (w : World) : World :=
  {| environ := environ w; files := files w; ticks := S (ticks w);
     opens := opens w; proc := proc w; trace := trace w |}.

(** [open(path, 'a')] has failed. *)
Definition refused (w : World) : World :=
  {| environ := environ w; files := files w; ticks := ticks w;
     opens := S (opens w); proc := proc w; trace := trace w |}.

(** [open(path, 'a')] has returned: the file exists. *)
Definition opened (path : string) (w : World) : World :=
  {| environ := environ w;
     files := <[path := content (files w) path]> (files w);
     ticks := ticks w; opens := S (opens w); proc := proc w;
     trace := trace w ++ [EvOpen path] |}.

(** [f.write(text)] has returned: the file has gained the bytes of the
    text. *)
Definition wrote (path text bytes : string) (w : World) : World :=
  {| environ := environ w;
     files := <[path := content (files w) path +:+ bytes]> (files w);
     ticks := ticks w; opens := opens w; proc := proc w;
     trace := trace w ++ [EvWrite path text] |}.

Definition set_proc (p : process) (w : World) : World :=
  {| environ := environ w; files := files w; ticks := ticks w;
     opens := opens w; proc := Some p; trace := trace w |}.

(** ** The primitives the script calls *)

(** [os.environ[k] = v] *)
Definition setenv (k v : string) : M unit := fun _ w => (Ok tt, with_environ k v w).

(** [os.path.abspath(__file__)] *)
Definition os_path_abspath_file : M string :=
  fun env w =>
    match abspath_file env with
    | inl e => (Raise (exn_of e), w)
    | inr p => (Ok p, w)
    end.

Definition os_getpid : M N := fun env w => (Ok (getpid env), w).

(** [os.system(cmd)]: the command runs with the launcher's standard streams
    and writes to them directly; its status is not looked at. *)
Definition os_system (cmd : string) : M unit :=
  fun env w =>
    (Ok tt, record_event (EvInherited (system_output env cmd))
              (record_event (EvSystem cmd) w)).

(** [time.strftime(fmt)]: reads the clock once. *)
Definition time_strftime (fmt : string) : M string :=
  fun env w => (Ok (strftime_at fmt (localtime env (ticks w))), tick w).

(** [open(path, 'a')]: raises [OSError] when the system refuses; otherwise
    the file exists afterwards, with what it held. *)
Definition open_append (path : string) : M string :=
  fun env w =>
    match open_error env (opens w) path with
    | Some d => (Raise (PyException d), refused w)
    | None => (Ok path, opened path w)
    end.

(** [with open(path, 'a') as f: body(f)].  Leaving the block closes the
    file, which changes nothing here: what [write] accepted is in the
    file. *)
Definition with_open_append {A} (path : string) (body : string -> M A) : M A :=
  f <- open_append path ;; body f.

(** [f.write(text)] on a text file opened for append: the text is encoded
    in the encoding of the locale, which raises [UnicodeEncodeError] when
    it cannot be. *)
Definition write (f text : string) : M unit :=
  fun env w =>
    match encode (locale env) text with
    | None => (Raise (PyException (encode_error env text)), w)
    | Some bytes => (Ok tt, wrote f text bytes w)
    end.

(** [print(text)]: hands the line to [sys.stdout], or raises. *)
Definition print (text : string) : M unit :=
  fun env w =>
    match print_error env (text +:+ nl) with
    | Some e => (Raise (exn_of e), w)
    | None => (Ok tt, record_event (EvPrint (text +:+ nl)) w)
    end.

(** What [/bin/bash FILE] does: when FILE cannot be found bash reports it
    and exits, as [bash_without_script] says; otherwise the script runs. *)
Definition run_child (fs : gmap string string) (env : Env)
    (argv : list string) : child_outcome :=
  match argv with
  | [_; file] =>
      match fs !! file with
      | None => bash_without_script env file
      | Some _ => script_outcome env
      end
  | _ => script_outcome env
  end.

(** [subprocess.Popen(argv, stdout=PIPE, stderr=PIPE)]: raises when the
    operating system refuses to start a process (the fork fails, the
    executable may not be run) or when the executable [argv[0]] is missing;
    the arguments are not looked at. *)
Definition Popen (argv : list string) : M unit :=
  fun env w =>
    match argv with
    | [] => (Raise (PyException "list index out of range"), w)
    | exe :: _ =>
        match spawn_error env with
        | Some e => (Raise (exn_of e), w)
        | None =>
            match files w !! exe with
            | None =>
                (Raise (PyException
                          ("[Errno 2] No such file or directory: '" +:+ exe +:+ "'")), w)
            | Some _ =>
                (Ok tt,
                 record_event (EvSpawn argv)
                   (set_proc {| args := argv; returncode := None |} w))
            end
        end
    end.

(** [process.communicate()]: reads both pipes to their end, then waits for
    the child, returns what the pipes carried and sets
    [process.returncode].  It does not return while the child runs or
    while anything holds a pipe open.  (The script calls it on the object
    [Popen] has just returned; the branch without a process is there for
    totality only.) *)
Definition communicate : M (string * string) :=
  fun env w =>
    match wait_interrupt env with
    | Some e => (Raise (exn_of e), w)
    | None =>
        match proc w with
        | None => (Raise (PyException "no process"), w)
        | Some p =>
            match run_child (files w) env (args p) with
            | Forever => (Diverge, w)
            | ExitsHolding _ => (Diverge, w)
            | Exits out err rc =>
                (Ok (out, err),
                 set_proc {| args := args p; returncode := Some rc |} w)
            end
        end
    end.

(** [process.returncode] *)
Definition child_returncode (w : World) : option Z :=
  match proc w with
  | Some p => returncode p
  | None => None
  end.

Definition get_returncode : M (option Z) :=
  fun _ w => (Ok (child_returncode w), w).

(** [str(x)] for an [int] or [None] *)
Definition str_returncode (rc : option Z) : string :=
  match rc with
  | Some z => pretty z
  | None => "None"
  end.

(** [err.decode()] *)
Definition decode (b : string) : M string :=
  fun env w =>
    if utf8_valid b then (Ok b, w)
    else (Raise (PyException (decode_error env b)), w).

(** [sys.exit(code)] *)
Definition sys_exit {A} (code : Z) : M A := raise (SystemExit code).

(** ** The script *)

Definition TS : M string := time_strftime TIME_FORMAT.

(** Lines 28-30: the startup log. *)
Definition log_startup (LOG_FILE SCRIPT_PATH : string) : M unit :=
  with_open_append LOG_FILE (fun f =>
    ts <- TS ;;
    write f (ts +:+ ": Starting RebasedCode Git Sync Runner" +:+ nl) ;;
    ts <- TS ;;
    write f (ts +:+ ": Script path: " +:+ SCRIPT_PATH +:+ nl)).

(** Lines 32-34. *)
Definition announce (SCRIPT_PATH LOG_FILE ERROR_LOG : string) : M unit :=
  print "Starting RebasedCode Git Sync process..." ;;
  print ("Script path: " +:+ SCRIPT_PATH) ;;
  print ("Logs will be written to " +:+ LOG_FILE +:+ " and " +:+ ERROR_LOG).

(** Lines 14-34, everything before the [try]: the paths are resolved, the
    process is relabelled, the startup log and the standard output get
    their lines.  Returns [SCRIPT_PATH] and [ERROR_LOG], which the rest
    uses. *)
Definition startup : M (string * string) :=
  setenv "PYTHONUNBUFFERED" "1" ;;
  here <- os_path_abspath_file ;;
  let SCRIPT_PATH := join (dirname here) "auto_git_sync.sh" in
  pid <- os_getpid ;;
  os_system ("ps -p " +:+ pretty pid +:+ " -o command= | sed " +:+ dquote
             +:+ "s/.*python.*/RebasedCodeGitSync/" +:+ dquote) ;;
  here <- os_path_abspath_file ;;
  let REPO_PATH := dirname here in
  let LOG_FILE := join REPO_PATH "sync_log.txt" in
  let ERROR_LOG := join REPO_PATH "sync_error.log" in
  log_startup LOG_FILE SCRIPT_PATH ;;
  announce SCRIPT_PATH LOG_FILE ERROR_LOG ;;
  ret (SCRIPT_PATH, ERROR_LOG).

(** Lines 38-43: the child is spawned and waited for. *)
Definition spawn_and_wait (SCRIPT_PATH : string) : M (string * string) :=
  Popen ["/bin/bash"; SCRIPT_PATH] ;;
  communicate.

(** Lines 46-50: the report of the child's end. *)
Definition log_termination (ERROR_LOG err : string) : M unit :=
  with_open_append ERROR_LOG (fun f =>
    ts <- TS ;;
    write f (ts +:+ ": Git sync process terminated unexpectedly" +:+ nl) ;;
    rc <- get_returncode ;;
    write f ("Return code: " +:+ str_returncode rc +:+ nl) ;;
    if is_empty err then ret tt
    else (text <- decode err ;;
          write f ("Error output: " +:+ text +:+ nl))).

(** Lines 38-52: the body of the [try]. *)
Definition run_script (SCRIPT_PATH ERROR_LOG : string) : M unit :=
  oe <- spawn_and_wait SCRIPT_PATH ;;
  log_termination ERROR_LOG (snd oe) ;;
  sys_exit 1.

(** Lines 54-57: the [except Exception as e] clause. *)
Definition on_exception (ERROR_LOG : string) (e : string) : M unit :=
  with_open_append ERROR_LOG (fun f =>
    ts <- TS ;;
    write f (ts +:+ ": Exception running git sync script: " +:+ e +:+ nl)) ;;
  sys_exit 1.

(** Lines 37-57. *)
Definition supervise (SCRIPT_PATH ERROR_LOG : string) : M unit :=
  try_except_Exception
    (run_script SCRIPT_PATH ERROR_LOG)
    (on_exception ERROR_LOG).

Definition main : M unit :=
  paths <- startup ;;
  supervise (fst paths) (snd paths).

(** The status with which the interpreter ends.  When it cannot flush its
    standard streams on the way out (the three lines of the announcement
    may still be in the buffer of [sys.stdout]), the status is 120,
    whatever the script asked for.  Otherwise it is 0 when the script runs
    to its end, the code of [sys.exit], and 1 after the traceback of an
    uncaught [Exception].  A run that never ends has none, and neither has
    one that an uncaught [BaseException] ends (the interpreter decides
    then). *)
Definition exit_status (env : Env) (r : result unit) : option Z :=
  match r with
  | Ok _ => Some (if exit_flush_fails env then 120 else 0)%Z
  | Raise (SystemExit n) => Some (if exit_flush_fails env then 120 else n)%Z
  | Raise (PyException _) => Some (if exit_flush_fails env then 120 else 1)%Z
  | Raise (PyBaseException _) => None
  | Diverge => None
  end.

(** ** The records of the two logs *)

Definition timestamp_at (env : Env) (k : nat) : string :=
  strftime_at TIME_FORMAT (localtime env k).

Definition start_line (ts : string) : string :=
  ts +:+ ": Starting RebasedCode Git Sync Runner" +:+ nl.

Definition path_line (ts path : string) : string :=
  ts +:+ ": Script path: " +:+ path +:+ nl.

(** The three lines of lines 47-50. *)
Definition head_line (ts : string) : string :=
  ts +:+ ": Git sync process terminated unexpectedly" +:+ nl.

Definition code_line (rc : Z) : string :=
  "Return code: " +:+ pretty rc +:+ nl.

Definition error_line (text : string) : string :=
  "Error output: " +:+ text +:+ nl.

(** The Termination Record: a timestamped line, the return code, and the
    child's error output when there is some. *)
Definition termination_record (ts : string) (rc : Z) (err : option string) : string :=
  ts +:+ ": Git sync process terminated unexpectedly" +:+ nl +:+
  "Return code: " +:+ pretty rc +:+ nl +:+
  match err with
  | Some text => "Error output: " +:+ text +:+ nl
  | None => EmptyString
  end.

(** The Exception Record. *)
Definition exception_record (ts descr : string) : string :=
  ts +:+ ": Exception running git sync script: " +:+ descr +:+ nl.

(** The texts written to [path], in order. *)
Definition writes_to (path : string) (evs : list event) : list string :=
  omap (fun ev =>
          match ev with
          | EvWrite p t => if String.eqb p path then Some t else None
          | _ => None
          end) evs.

(** * Vocabulary of the properties *)

(** ** Runs *)

(** How a run ends, and the world it leaves. *)
Definition outcome (env : Env) (w : World) : result unit := fst (main env w).
Definition final (env : Env) (w : World) : World := snd (main env w).

(** ** The files next to a launcher that lives at [here] *)

(** [SCRIPT_PATH], [LOG_FILE] and [ERROR_LOG] of lines 17-25. *)
Definition script_path (here : string) : string := join (dirname here) "auto_git_sync.sh".
Definition log_file (here : string) : string := join (dirname here) "sync_log.txt".
Definition error_log (here : string) : string := join (dirname here) "sync_error.log".

(** The command of line 20. *)
Definition relabel_command (pid : N) : string :=
  "ps -p " +:+ pretty pid +:+ " -o command= | sed " +:+ dquote
  +:+ "s/.*python.*/RebasedCodeGitSync/" +:+ dquote.

(** What [join] puts in front of a relative name. *)
Definition join_prefix (a : string) : string :=
  if is_empty a || endswith_slash a then a else a +:+ "/".

(** [s[-1]], when there is one. *)
Fixpoint last_char (s : string) : option ascii :=
  match s with
  | EmptyString => None
  | String c EmptyString => Some c
  | String _ r => last_char r
  end.

(** ** The stages of the startup *)

(** The two launch lines of a run that starts at clock reading [k]. *)
Definition launch_lines (env : Env) (k : nat) (here : string) : list string :=
  [start_line (timestamp_at env k);
   path_line (timestamp_at env (S k)) (script_path here)].

(** The three lines of lines 32-34. *)
Definition announcement (here : string) : list string :=
  ["Starting RebasedCode Git Sync process..." +:+ nl;
   ("Script path: " +:+ script_path here) +:+ nl;
   ("Logs will be written to " +:+ log_file here +:+ " and " +:+ error_log here) +:+ nl].

(** Line 14 has run. *)
Definition unbuffered (w : World) : World := with_environ "PYTHONUNBUFFERED" "1" w.

(** Lines 14-20 have run. *)
Definition relabelled (env : Env) (w : World) : World :=
  record_event (EvInherited (system_output env (relabel_command (getpid env))))
    (record_event (EvSystem (relabel_command (getpid env))) (unbuffered w)).

(** The startup log is open and has its first line. *)
Definition half_launched (env : Env) (here : string) (w : World) : World :=
  wrote (log_file here) (start_line (timestamp_at env (ticks w)))
    (start_line (timestamp_at env (ticks w)))
    (tick (opened (log_file here) (relabelled env w))).

(** The startup log has both lines, the second as the bytes [line2]. *)
Definition launched (env : Env) (here line2 : string) (w : World) : World :=
  wrote (log_file here) (path_line (timestamp_at env (S (ticks w))) (script_path here))
    line2 (tick (half_launched env here w)).

(** The lines [texts] have been printed. *)
Fixpoint printed (texts : list string) (w : World) : World :=
  match texts with
  | [] => w
  | t :: rest => printed rest (record_event (EvPrint t) w)
  end.

(** The world in which the [try] is entered. *)
Definition started (env : Env) (here line2 : string) (w : World) : World :=
  printed (announcement here) (launched env here line2 w).

(** What the launcher has done when it reaches the [try]. *)
Definition startup_events (env : Env) (k : nat) (here : string) : list event :=
  [EvSystem (relabel_command (getpid env));
   EvInherited (system_output env (relabel_command (getpid env)));
   EvOpen (log_file here);
   EvWrite (log_file here) (start_line (timestamp_at env k));
   EvWrite (log_file here) (path_line (timestamp_at env (S k)) (script_path here));
   EvPrint ("Starting RebasedCode Git Sync process..." +:+ nl);
   EvPrint (("Script path: " +:+ script_path here) +:+ nl);
   EvPrint (("Logs will be written to " +:+ log_file here +:+ " and "
             +:+ error_log here) +:+ nl)].

(** The ways lines 14-34 can go. *)
Inductive begun (env : Env) (w : World) : result (string * string) -> World -> Prop :=
  | beg_lost e :
      abspath_file env = inl e ->
      begun env w (Raise (exn_of e)) (unbuffered w)
  | beg_refused here d :
      abspath_file env = inr here ->
      open_error env (opens w) (log_file here) = Some d ->
      begun env w (Raise (PyException d)) (refused (relabelled env w))
  | beg_unencodable here :
      abspath_file env = inr here ->
      open_error env (opens w) (log_file here) = None ->
      encode (locale env)
        (path_line (timestamp_at env (S (ticks w))) (script_path here)) = None ->
      begun env w
        (Raise (PyException
                  (encode_error env
                     (path_line (timestamp_at env (S (ticks w))) (script_path here)))))
        (tick (half_launched env here w))
  | beg_mute here line2 k t e :
      abspath_file env = inr here ->
      open_error env (opens w) (log_file here) = None ->
      encode (locale env)
        (path_line (timestamp_at env (S (ticks w))) (script_path here)) = Some line2 ->
      announcement here !! k = Some t ->
      print_error env t = Some e ->
      begun env w (Raise (exn_of e))
        (printed (take k (announcement here)) (launched env here line2 w))
  | beg_ready here line2 :
      abspath_file env = inr here ->
      open_error env (opens w) (log_file here) = None ->
      encode (locale env)
        (path_line (timestamp_at env (S (ticks w))) (script_path here)) = Some line2 ->
      Forall (fun t => print_error env t = None) (announcement here) ->
      begun env w (Ok (script_path here, error_log here)) (started env here line2 w).

(** ** The [try] statement as a relation *)

(** The first two lines of the Termination Record are in the error
    log. *)
Definition termination_begun (env : Env) (el : string) (rc : Z) (w : World) : World :=
  wrote el (code_line rc) (code_line rc)
    (wrote el (head_line (timestamp_at env (ticks w)))
       (head_line (timestamp_at env (ticks w)))
       (tick (opened el w))).

(** The ways lines 46-50 can go when the child has exited with status
    [rc] and error output [err]. *)
Inductive terminated (env : Env) (el err : string) (rc : Z) (w : World) :
    result unit -> World -> Prop :=
  | ter_refused d :
      open_error env (opens w) el = Some d ->
      terminated env el err rc w (Raise (PyException d)) (refused w)
  | ter_silent :
      open_error env (opens w) el = None ->
      err = EmptyString ->
      terminated env el err rc w (Ok tt) (termination_begun env el rc w)
  | ter_undecodable :
      open_error env (opens w) el = None ->
      err <> EmptyString ->
      utf8_valid err = false ->
      terminated env el err rc w (Raise (PyException (decode_error env err)))
        (termination_begun env el rc w)
  | ter_unencodable :
      open_error env (opens w) el = None ->
      err <> EmptyString ->
      utf8_valid err = true ->
      encode (locale env) (error_line err) = None ->
      terminated env el err rc w
        (Raise (PyException (encode_error env (error_line err))))
        (termination_begun env el rc w)
  | ter_reported line3 :
      open_error env (opens w) el = None ->
      err <> EmptyString ->
      utf8_valid err = true ->
      encode (locale env) (error_line err) = Some line3 ->
      terminated env el err rc w (Ok tt)
        (wrote el (error_line err) line3 (termination_begun env el rc w)).

(** The ways lines 54-57 can go for an exception whose [str] is [d]. *)
Inductive handled (env : Env) (el d : string) (w : World) :
    result unit -> World -> Prop :=
  | han_refused d' :
      open_error env (opens w) el = Some d' ->
      handled env el d w (Raise (PyException d')) (refused w)
  | han_unencodable :
      open_error env (opens w) el = None ->
      encode (locale env) (exception_record (timestamp_at env (ticks w)) d) = None ->
      handled env el d w
        (Raise (PyException
                  (encode_error env (exception_record (timestamp_at env (ticks w)) d))))
        (tick (opened el w))
  | han_logged bytes :
      open_error env (opens w) el = None ->
      encode (locale env) (exception_record (timestamp_at env (ticks w)) d) = Some bytes ->
      handled env el d w (Raise (SystemExit 1))
        (wrote el (exception_record (timestamp_at env (ticks w)) d) bytes
           (tick (opened el w))).

(** The ways lines 37-57 can go, from the world [w1] in which the [try]
    is entered. *)
Inductive supervised (env : Env) (sp el : string) (w1 : World) :
    result unit -> World -> Prop :=
  | sup_escapes e w2 :
      spawn_and_wait sp env w1 = (Raise e, w2) ->
      (forall d, e <> PyException d) ->
      supervised env sp el w1 (Raise e) w2
  | sup_blocks w2 :
      spawn_and_wait sp env w1 = (Diverge, w2) ->
      supervised env sp el w1 Diverge w2
  | sup_caught d w2 r w' :
      spawn_and_wait sp env w1 = (Raise (PyException d), w2) ->
      handled env el d w2 r w' ->
      supervised env sp el w1 r w'
  | sup_terminated out err rc w2 w3 :
      spawn_and_wait sp env w1 = (Ok (out, err), w2) ->
      child_returncode w2 = Some rc ->
      terminated env el err rc w2 (Ok tt) w3 ->
      supervised env sp el w1 (Raise (SystemExit 1)) w3
  | sup_failed out err rc w2 d w3 r w' :
      spawn_and_wait sp env w1 = (Ok (out, err), w2) ->
      child_returncode w2 = Some rc ->
      terminated env el err rc w2 (Raise (PyException d)) w3 ->
      handled env el d w3 r w' ->
      supervised env sp el w1 r w'.

(** The run reaches one of its two terminal branches: the child has exited
    and lines 45-52 run, or step 5 has raised an [Exception] and lines
    54-57 run. *)
Definition terminal_branch_reached (env : Env) (w : World) : Prop :=
  exists sp el w1 r w2,
    startup env w = (Ok (sp, el), w1) /\
    spawn_and_wait sp env w1 = (r, w2) /\
    match r with
    | Ok _ => True
    | Raise (PyException _) => True
    | _ => False
    end.

(** The events of lines 37-57: the spawn, and the error log opened and
    written. *)
Definition error_event (el : string) (ev : event) : Prop :=
  match ev with
  | EvSpawn _ => True
  | EvOpen p => p = el
  | EvWrite p _ => p = el
  | _ => False
  end.

(** The events of lines 14-34: the relabelling, the startup log opened and
    written, the announcement. *)
Definition startup_event (lf : string) (ev : event) : Prop :=
  match ev with
  | EvSystem _ => True
  | EvInherited _ => True
  | EvOpen p => p = lf
  | EvWrite p _ => p = lf
  | EvPrint _ => True
  | EvSpawn _ => False
  end.

(** The file an event opens or writes, if it does. *)
Definition touched (ev : event) : option string :=
  match ev with
  | EvOpen p => Some p
  | EvWrite p _ => Some p
  | _ => None
  end.

(** [w'] comes from [w] by events that satisfy [ok], and its files are
    those of [w] but for [path], which has been appended to or created. *)
Definition grows (ok : event -> Prop) (path : string) (w w' : World) : Prop :=
  (forall p, p <> path -> files w' !! p = files w !! p) /\
  (forall c, files w !! path = Some c ->
             exists more, files w' !! path = Some (c +:+ more)) /\
  exists evs, trace w' = (trace w ++ evs)%list /\ Forall ok evs.


(** ** Shapes of texts *)

(** Exactly two, exactly four decimal digits. *)
Definition two_digits (s : string) : bool :=
  match s with
  | String a (String b EmptyString) => is_digit a && is_digit b
  | _ => false
  end.

Definition four_digits (s : string) : bool :=
  match s with
  | String a (String b (String c (String d EmptyString))) =>
      is_digit a && is_digit b && is_digit c && is_digit d
  | _ => false
  end.

(** Records written one after the other. *)
Definition concat_text (l : list string) : string :=
  fold_right String.append EmptyString l.

(** A record of the error log, with a well-formed timestamp. *)
Definition error_record (r : string) : Prop :=
  (exists ts rc oerr, is_timestamp ts = true /\ r = termination_record ts rc oerr) \/
  (exists ts d, is_timestamp ts = true /\ r = exception_record ts d).

(** ** Surroundings that differ in the child's standard output *)

Definition with_stdout (out' : string) (o : child_outcome) : child_outcome :=
  match o with
  | Exits _ err rc => Exits out' err rc
  | other => other
  end.

(** The same surroundings, but for what the child writes to its standard
    output. *)
Definition with_child_stdout (out' : string) (env : Env) : Env :=
  {| abspath_file := abspath_file env;
     getpid := getpid env;
     localtime := localtime env;
     system_output := system_output env;
     open_error := open_error env;
     locale := locale env;
     encode_error := encode_error env;
     print_error := print_error env;
     spawn_error := spawn_error env;
     script_outcome := with_stdout out' (script_outcome env);
     bash_without_script := fun file => with_stdout out' (bash_without_script env file);
     wait_interrupt := wait_interrupt env;
     decode_error := decode_error env;
     exit_flush_fails := exit_flush_fails env |}.

(** ** What a run does besides writing *)

(** The commands handed to [os.system] and the argument vectors handed to
    [subprocess.Popen], each in order. *)
Definition systems_of (evs : list event) : list string :=
  omap (fun ev => match ev with EvSystem c => Some c | _ => None end) evs.

Definition spawns_of (evs : list event) : list (list string) :=
  omap (fun ev => match ev with EvSpawn a => Some a | _ => None end) evs.

(** What is sent to the launcher's standard output, by the commands that
    inherit it and by [print], in the order in which it is handed over. *)
Definition stdout_of (evs : list event) : list string :=
  omap (fun ev =>
          match ev with
          | EvInherited t => Some t
          | EvPrint t => Some t
          | _ => None
          end) evs.

(** The world right after [Popen] has started bash on [sp]. *)
Definition spawned (sp : string) (w : World) : World :=
  record_event (EvSpawn ["/bin/bash"; sp])
    (set_proc {| args := ["/bin/bash"; sp]; returncode := None |} w).

(** The world in which [communicate] has returned with status [rc]. *)
Definition waited (sp : string) (rc : Z) (w : World) : World :=
  set_proc {| args := ["/bin/bash"; sp]; returncode := Some rc |} (spawned sp w).

(** What [FileNotFoundError] says of a missing executable. *)
Definition no_such_file (exe : string) : string :=
  "[Errno 2] No such file or directory: '" +:+ exe +:+ "'".

(** ** Example runs *)

(** Where the launcher of the examples is installed. *)
Definition here_sync : string := "/opt/sync/git_sync_runner.py".

(** A clock that advances one second per reading. *)
Definition ticking (k : nat) : struct_time :=
  {| tm_year := 2024; tm_mon := 3; tm_mday := 9;
     tm_hour := 7; tm_min := 5; tm_sec := N.of_nat k |}.

(** What bash does with a file it cannot find: a diagnostic on its error
    stream, status 127. *)
Definition bash_reports_missing (file : string) : child_outcome :=
  Exits EmptyString
    ("/bin/bash: " +:+ file +:+ ": No such file or directory" +:+ nl) 127.

(** Surroundings in which nothing goes wrong but, possibly, the child: a
    UTF-8 locale, files that open, streams that take what is printed. *)
Definition calm (here : raised + string) (script : child_outcome)
    (interrupt : option raised) (flush_fails : bool) : Env :=
  {| abspath_file := here; getpid := 4242; localtime := ticking;
     system_output := fun _ => "RebasedCodeGitSync" +:+ nl;
     open_error := fun _ _ => None;
     locale := UTF8;
     encode_error := fun _ => "'utf-8' codec can't encode characters";
     print_error := fun _ => None;
     spawn_error := None;
     script_outcome := script;
     bash_without_script := bash_reports_missing;
     wait_interrupt := interrupt;
     decode_error := fun _ => "'utf-8' codec can't decode bytes";
     exit_flush_fails := flush_fails |}.

(** The script exists and fails at once with status 3. *)
Definition env_boom : Env := calm (inr here_sync) (Exits "hello" "boom" 3) None false.

(** A fresh process in front of the files [fs]. *)
Definition bare (fs : gmap string string) : World :=
  {| environ := ∅; files := fs; ticks := 0; opens := 0; proc := None; trace := [] |}.

(** bash and the sync script are installed. *)
Definition w_ready : World :=
  bare (<["/bin/bash" := "ELF"]> (<["/opt/sync/auto_git_sync.sh" := "#!/bin/bash"]> ∅)).


(** Not even bash is there. *)
Definition w_no_bash : World := bare ∅.


(** The world in which [env_boom]'s child has been waited for. *)
Definition boom_started : World := snd (startup env_boom w_ready).
Definition boom_exited : World :=
  snd (spawn_and_wait (script_path here_sync) env_boom boom_started).

(** "café" as a Latin-1 terminal would send it: the bytes [63 61 66 E9],
    which are not UTF-8. *)
Definition cafe_latin1 : string := "caf" +:+ String (ascii_of_nat 233) EmptyString.




(** The sync script does what it is meant to do: it never returns. *)
Definition env_forever : Env := calm (inr here_sync) Forever None false.

(** The user presses Ctrl-C while the launcher waits. *)
Definition env_interrupted : Env :=
  calm (inr here_sync) Forever (Some (ABaseException "KeyboardInterrupt")) false.


(** The script fails at once, and the launcher's standard output is a pipe
    whose reader has gone: the announcement cannot be flushed. *)
Definition env_clogged : Env := calm (inr here_sync) (Exits "hello" "boom" 3) None true.

(** ** Example surroundings in which the launcher itself is hindered *)

(** A launcher installed in a directory whose name is not text: the byte
    [E9] of a Latin-1 name, which Python holds as a surrogate escape. *)
Definition here_latin1 : string :=
  "/srv/caf" +:+ String (ascii_of_nat 233) EmptyString +:+ "/git_sync_runner.py".

Definition env_untexted : Env := calm (inr here_latin1) Forever None false.

(** "café" in UTF-8: the bytes [63 61 66 C3 A9]. *)
Definition cafe_utf8 : string :=
  "caf" +:+ String (ascii_of_nat 195) (String (ascii_of_nat 169) EmptyString).

(** The script reports its failure in UTF-8, and the launcher runs in a
    locale whose text files are ASCII (the C locale, for an interpreter
    that does not switch to UTF-8 there). *)
Definition env_ascii_locale : Env :=
  {| abspath_file := inr here_sync; getpid := 4242; localtime := ticking;
     system_output := fun _ => "RebasedCodeGitSync" +:+ nl;
     open_error := fun _ _ => None;
     locale := ASCII;
     encode_error := fun _ =>
       "'ascii' codec can't encode character '\xe9' in position 17: ordinal not in range(128)";
     print_error := fun _ => None;
     spawn_error := None;
     script_outcome := Exits EmptyString cafe_utf8 1;
     bash_without_script := bash_reports_missing;
     wait_interrupt := None;
     decode_error := fun _ => "'utf-8' codec can't decode bytes";
     exit_flush_fails := false |}.

(** The same script under a Latin-1 locale. *)
Definition env_latin1_locale : Env :=
  {| abspath_file := inr here_sync; getpid := 4242; localtime := ticking;
     system_output := fun _ => "RebasedCodeGitSync" +:+ nl;
     open_error := fun _ _ => None;
     locale := Latin1;
     encode_error := fun _ => "'latin-1' codec can't encode characters";
     print_error := fun _ => None;
     spawn_error := None;
     script_outcome := Exits EmptyString cafe_utf8 1;
     bash_without_script := bash_reports_missing;
     wait_interrupt := None;
     decode_error := fun _ => "'utf-8' codec can't decode bytes";
     exit_flush_fails := false |}.

(** The error log is a directory, or not writable: every [open] of it
    fails. *)
Definition env_locked : Env :=
  {| abspath_file := inr here_sync; getpid := 4242; localtime := ticking;
     system_output := fun _ => "RebasedCodeGitSync" +:+ nl;
     open_error := fun _ path =>
       if String.eqb path "/opt/sync/sync_error.log"
       then Some "[Errno 13] Permission denied: '/opt/sync/sync_error.log'"
       else None;
     locale := UTF8;
     encode_error := fun _ => "'utf-8' codec can't encode characters";
     print_error := fun _ => None;
     spawn_error := None;
     script_outcome := Exits "hello" "boom" 3;
     bash_without_script := bash_reports_missing;
     wait_interrupt := None;
     decode_error := fun _ => "'utf-8' codec can't decode bytes";
     exit_flush_fails := false |}.

(** * Properties *)

(** ** Strings *)

Lemma append_nil_l (s : string) : EmptyString +:+ s = s.
Proof. reflexivity. Qed.

Lemma append_cons (c : ascii) (s t : string) : String c s +:+ t = String c (s +:+ t).
Proof. reflexivity. Qed.

Lemma append_nil_r (s : string) : s +:+ EmptyString = s.
Proof.
  induction s as [|c s IH]; [reflexivity|].
  now rewrite append_cons, IH.
Qed.

Lemma append_assoc (a b c : string) : (a +:+ b) +:+ c = a +:+ (b +:+ c).
Proof.
  induction a as [|x a IH]; [reflexivity|].
  now rewrite !append_cons, IH.
Qed.

Lemma count_nl_app (a b : string) : count_nl (a +:+ b) = count_nl a + count_nl b.
Proof.
  induction a as [|x a IH]; [reflexivity|].
  rewrite append_cons. simpl. rewrite IH. lia.
Qed.


(** ** Paths *)

Lemma join_relative (a b : string) :
  startswith_slash b = false -> join a b = join_prefix a +:+ b.
Proof.
  intros Hb. unfold join, join_prefix. rewrite Hb.
  destruct (is_empty a || endswith_slash a); [reflexivity|].
  now rewrite append_assoc.
Qed.

Lemma join_inj (a b1 b2 : string) :
  startswith_slash b1 = false -> startswith_slash b2 = false ->
  join a b1 = join a b2 -> b1 = b2.
Proof.
  intros H1 H2. rewrite !join_relative by assumption.
  apply (inj (String.append _)).
Qed.

Lemma last_char_app (a b : string) :
  b <> EmptyString -> last_char (a +:+ b) = last_char b.
Proof.
  intros Hb. induction a as [|x a IH]; [reflexivity|].
  rewrite append_cons. simpl. rewrite <- IH.
  destruct (a +:+ b) eqn:E; [|reflexivity].
  destruct a; [rewrite append_nil_l in E; congruence | discriminate].
Qed.


Lemma log_file_not_error_log (d : string) :
  join d "sync_log.txt" <> join d "sync_error.log".
Proof. intros H. apply join_inj in H; [discriminate | reflexivity..]. Qed.

Lemma log_file_not_bash (d : string) : join d "sync_log.txt" <> "/bin/bash".
Proof.
  intros H. apply (f_equal last_char) in H.
  rewrite join_relative, last_char_app in H by (reflexivity || discriminate).
  discriminate.
Qed.


(** ** Files *)

Lemma content_insert (fs : gmap string string) (p s : string) :
  content (<[p := s]> fs) p = s.
Proof. unfold content. now rewrite lookup_insert_eq. Qed.

Lemma content_insert_ne (fs : gmap string string) (p q s : string) :
  p <> q -> content (<[p := s]> fs) q = content fs q.
Proof. intros H. unfold content. now rewrite lookup_insert_ne. Qed.

(** ** Substrings *)





(** ** ASCII text *)

Lemma is_ascii_app (a b : string) : is_ascii (a +:+ b) = is_ascii a && is_ascii b.
Proof.
  induction a as [|c a IH]; [reflexivity|].
  rewrite append_cons. cbn [is_ascii]. now rewrite IH, andb_assoc.
Qed.

(** A byte below 128 is in no range that starts at 128 or above. *)
Lemma ascii_not_above (c : ascii) (lo hi : N) :
  byte_in 0 127 c = true -> (128 <= lo)%N -> byte_in lo hi c = false.
Proof.
  unfold byte_in. intros H Hlo.
  apply andb_prop in H as [_ H]. apply N.leb_le in H.
  apply andb_false_intro1. apply N.leb_gt. lia.
Qed.

Lemma ascii_not_cont (c : ascii) : byte_in 0 127 c = true -> is_cont c = false.
Proof. intros H. apply (ascii_not_above c 128 191 H). lia. Qed.

Lemma utf8_valid_ascii (s : string) : is_ascii s = true -> utf8_valid s = true.
Proof.
  induction s as [|c s IH]; [reflexivity|].
  cbn [is_ascii utf8_valid]. intros H. apply andb_prop in H as [-> H].
  now apply IH.
Qed.

Lemma utf8_valid_app_ascii_l (a s : string) :
  is_ascii a = true -> utf8_valid (a +:+ s) = utf8_valid s.
Proof.
  induction a as [|c a IH]; [reflexivity|].
  cbn [is_ascii]. intros H. apply andb_prop in H as [Hc H].
  rewrite append_cons. cbn [utf8_valid]. rewrite Hc. now apply IH.
Qed.

(** What a multi-byte sequence needs after its first byte is never found
    at the head of ASCII text. *)
Ltac ascii_head b Hb :=
  destruct b as [|? ?];
  [| let Hc := fresh "Hc" in
     cbn [is_ascii] in Hb; apply andb_prop in Hb as [Hc Hb];
     pose proof (ascii_not_cont _ Hc);
     pose proof (ascii_not_above _ 160 191 Hc ltac:(lia));
     pose proof (ascii_not_above _ 128 159 Hc ltac:(lia));
     pose proof (ascii_not_above _ 144 191 Hc ltac:(lia));
     pose proof (ascii_not_above _ 128 143 Hc ltac:(lia)) ].

Ltac cut_short :=
  cbn [utf8_valid];
  repeat match goal with
         | H : _ = false |- _ => rewrite H
         end;
  repeat match goal with
         | |- context [if ?x then _ else _] => destruct x
         end;
  rewrite ?andb_false_r; cbn [andb]; reflexivity.

Lemma utf8_valid_app_ascii_r (t b : string) :
  is_ascii b = true -> utf8_valid (t +:+ b) = utf8_valid t.
Proof.
  intros Hb.
  remember (String.length t) as n eqn:Hn.
  assert (Hle : String.length t <= n) by lia. clear Hn.
  revert t Hle. induction n as [|n IH]; intros t Hle.
  - destruct t; [|simpl in Hle; lia].
    rewrite append_nil_l. now apply utf8_valid_ascii.
  - destruct t as [|b0 r0].
    { rewrite append_nil_l. now apply utf8_valid_ascii. }
    rewrite append_cons. cbn [utf8_valid]. simpl in Hle.
    destruct (byte_in 0 127 b0); [apply IH; lia|].
    destruct (byte_in 194 223 b0).
    { destruct r0 as [|b1 r1].
      - rewrite append_nil_l. ascii_head b Hb; [reflexivity | cut_short].
      - rewrite append_cons. simpl in Hle. rewrite IH by lia. reflexivity. }
    destruct (byte_in 224 239 b0).
    { destruct r0 as [|b1 [|b2 r2]].
      - rewrite append_nil_l. ascii_head b Hb; [reflexivity|].
        destruct b; cut_short.
      - rewrite append_cons, append_nil_l. ascii_head b Hb; [reflexivity | cut_short].
      - rewrite !append_cons. simpl in Hle. rewrite IH by lia. reflexivity. }
    destruct (byte_in 240 244 b0); [|reflexivity].
    destruct r0 as [|b1 [|b2 [|b3 r3]]].
    + rewrite append_nil_l. ascii_head b Hb; [reflexivity|].
      destruct b as [|? [|? ?]]; cut_short.
    + rewrite append_cons, append_nil_l. ascii_head b Hb; [reflexivity|].
      destruct b; cut_short.
    + rewrite !append_cons, append_nil_l. ascii_head b Hb; [reflexivity | cut_short].
    + rewrite !append_cons. simpl in Hle. rewrite IH by lia. reflexivity.
Qed.

(** ** Encodings *)

Lemma encode_latin1_ascii (s : string) :
  is_ascii s = true -> encode_latin1 s = Some s.
Proof.
  induction s as [|c s IH]; [reflexivity|].
  cbn [is_ascii encode_latin1]. intros H. apply andb_prop in H as [-> H].
  now rewrite (IH H).
Qed.

Lemma encode_latin1_app_l (a s : string) :
  is_ascii a = true ->
  encode_latin1 (a +:+ s) = String.append a <$> encode_latin1 s.
Proof.
  induction a as [|c a IH].
  - intros _. rewrite append_nil_l. now destruct (encode_latin1 s).
  - cbn [is_ascii]. intros H. apply andb_prop in H as [Hc H].
    rewrite append_cons. cbn [encode_latin1]. rewrite Hc, (IH H).
    now destruct (encode_latin1 s).
Qed.

Lemma encode_latin1_app_r (t b : string) :
  is_ascii b = true ->
  encode_latin1 (t +:+ b) = (fun t' => t' +:+ b) <$> encode_latin1 t.
Proof.
  intros Hb.
  remember (String.length t) as n eqn:Hn.
  assert (Hle : String.length t <= n) by lia. clear Hn.
  revert t Hle. induction n as [|n IH]; intros t Hle.
  - destruct t; [|simpl in Hle; lia].
    rewrite append_nil_l. now apply encode_latin1_ascii.
  - destruct t as [|b0 r0].
    { rewrite append_nil_l. now apply encode_latin1_ascii. }
    rewrite append_cons. cbn [encode_latin1]. simpl in Hle.
    destruct (byte_in 0 127 b0).
    { rewrite IH by lia. now destruct (encode_latin1 r0). }
    destruct (byte_in 194 195 b0); [|reflexivity].
    destruct r0 as [|b1 r1].
    + rewrite append_nil_l. destruct b as [|c b']; [reflexivity|].
      cbn [is_ascii] in Hb. apply andb_prop in Hb as [Hc _].
      now rewrite (ascii_not_cont _ Hc).
    + rewrite append_cons. simpl in Hle.
      destruct (is_cont b1); [|reflexivity].
      rewrite IH by lia. now destruct (encode_latin1 r1).
Qed.

(** ASCII text is written as it is, whatever the locale. *)
Lemma encode_ascii (c : codec) (s : string) :
  is_ascii s = true -> encode c s = Some s.
Proof.
  intros H. destruct c; cbn [encode].
  - now rewrite (utf8_valid_ascii _ H).
  - now rewrite H.
  - now apply encode_latin1_ascii.
Qed.

(** A text between ASCII texts is encoded on its own. *)
Lemma encode_frame (c : codec) (a t b : string) :
  is_ascii a = true -> is_ascii b = true ->
  encode c (a +:+ t +:+ b) = (fun t' => a +:+ t' +:+ b) <$> encode c t.
Proof.
  intros Ha Hb. destruct c; cbn [encode].
  - rewrite (utf8_valid_app_ascii_l _ _ Ha), (utf8_valid_app_ascii_r _ _ Hb).
    now destruct (utf8_valid t).
  - rewrite !is_ascii_app, Ha, Hb, andb_true_r. cbn [andb].
    now destruct (is_ascii t).
  - rewrite (encode_latin1_app_l _ _ Ha), (encode_latin1_app_r _ _ Hb).
    now destruct (encode_latin1 t).
Qed.


(** ** Timestamps *)

Lemma timestamp_unfold (t : struct_time) :
  strftime_at TIME_FORMAT t =
  pretty (tm_year t) +:+ "-" +:+ pad2 (tm_mon t) +:+ "-" +:+ pad2 (tm_mday t) +:+ " "
  +:+ pad2 (tm_hour t) +:+ ":" +:+ pad2 (tm_min t) +:+ ":" +:+ pad2 (tm_sec t).
Proof.
  unfold TIME_FORMAT. cbn [strftime_at Ascii.eqb Bool.eqb].
  cbv [directive]. cbn [Ascii.eqb Bool.eqb].
  now rewrite append_nil_r.
Qed.

Lemma pretty_N_char_no_nl (x : N) : is_nl (pretty_N_char x) = false.
Proof. unfold pretty_N_char. repeat case_match; reflexivity. Qed.

Lemma pretty_N_no_nl (n : N) : count_nl (pretty n) = 0.
Proof.
  assert (Hgo : forall x s, count_nl s = 0 -> count_nl (pretty_N_go x s) = 0).
  { intros x. induction (N.lt_wf_0 x) as [x _ IH]; intros s Hs.
    destruct (decide (x = 0)%N) as [->|Hx]; [now rewrite pretty_N_go_0|].
    rewrite pretty_N_go_step by lia. apply IH; [apply N.div_lt; lia|].
    simpl. now rewrite pretty_N_char_no_nl, Hs. }
  unfold pretty, pretty_N. case_decide; [reflexivity | now apply Hgo].
Qed.



Lemma pad2_two_digits (n : N) : (n < 100)%N -> two_digits (pad2 n) = true.
Proof.
  intros Hn.
  assert (H : forallb (fun k => two_digits (pad2 (N.of_nat k))) (seq 0 100) = true)
    by (vm_compute; reflexivity).
  rewrite forallb_forall in H. specialize (H (N.to_nat n)).
  rewrite N2Nat.id in H. apply H. apply in_seq. lia.
Qed.

Lemma year_four_digits (n : N) :
  (1000 <= n <= 9999)%N -> four_digits (pretty n) = true.
Proof.
  intros Hn.
  assert (H : forallb (fun k => four_digits (pretty (N.of_nat k))) (seq (N.to_nat 1000) (N.to_nat 9000)) = true)
    by (vm_compute; reflexivity).
  rewrite forallb_forall in H. specialize (H (N.to_nat n)).
  rewrite N2Nat.id in H. apply H. apply in_seq. lia.
Qed.

Ltac digits_of H :=
  match type of H with
  | two_digits ?s = true =>
      let a := fresh "a" in let b := fresh "b" in
      destruct s as [|a [|b [|? ?]]]; try discriminate H;
      cbn [two_digits] in H; apply andb_prop in H; destruct H
  | four_digits ?s = true =>
      let a := fresh "a" in let b := fresh "b" in
      let c := fresh "c" in let d := fresh "d" in
      destruct s as [|a [|b [|c [|d [|? ?]]]]]; try discriminate H;
      cbn [four_digits] in H;
      apply andb_prop in H; destruct H as [H ?];
      apply andb_prop in H; destruct H as [H ?];
      apply andb_prop in H; destruct H
  end.

(** With a four-digit year the clock prints as [YYYY-MM-DD HH:MM:SS]. *)
Lemma timestamp_format (t : struct_time) :
  tm_ok t = true -> is_timestamp (strftime_at TIME_FORMAT t) = true.
Proof.
  unfold tm_ok. rewrite !andb_true_iff, !N.leb_le.
  intros ((((((((H1 & H2) & H3) & H4) & H5) & H6) & H7) & H8) & H9).
  rewrite timestamp_unfold.
  assert (Y : four_digits (pretty (tm_year t)) = true) by (apply year_four_digits; lia).
  assert (Mo : two_digits (pad2 (tm_mon t)) = true) by (apply pad2_two_digits; lia).
  assert (D : two_digits (pad2 (tm_mday t)) = true) by (apply pad2_two_digits; lia).
  assert (Ho : two_digits (pad2 (tm_hour t)) = true) by (apply pad2_two_digits; lia).
  assert (Mi : two_digits (pad2 (tm_min t)) = true) by (apply pad2_two_digits; lia).
  assert (S : two_digits (pad2 (tm_sec t)) = true) by (apply pad2_two_digits; lia).
  digits_of Y. digits_of Mo. digits_of D. digits_of Ho. digits_of Mi. digits_of S.
  cbv -[is_digit].
  repeat match goal with
         | E : is_digit _ = true |- _ => rewrite E; clear E
         end.
  reflexivity.
Qed.

Lemma match_prefix_app (p q s r : string) :
  match_prefix p s = Some EmptyString ->
  match_prefix (p +:+ q) (s +:+ r) = match_prefix q r.
Proof.
  revert s. induction p as [|c p IH]; intros s H.
  - destruct s; [reflexivity | discriminate].
  - destruct s as [|x s]; [discriminate|].
    rewrite !append_cons. cbn [match_prefix] in *.
    destruct (if Ascii.eqb c "d" then is_digit x else Ascii.eqb c x); [|discriminate].
    now apply IH.
Qed.

(** A line that starts with a timestamp and [": "] has the log format. *)
Lemma timestamped_line (ts msg : string) :
  is_timestamp ts = true -> timestamped (ts +:+ ": " +:+ msg) = true.
Proof.
  unfold is_timestamp, timestamped. intros H.
  destruct (match_prefix TIMESTAMP_PATTERN ts) as [[|]|] eqn:E; try discriminate.
  rewrite (match_prefix_app _ _ _ _ E). reflexivity.
Qed.

(** ** The ASCII parts of the records *)

Lemma pretty_N_char_ascii (x : N) : byte_in 0 127 (pretty_N_char x) = true.
Proof. unfold pretty_N_char. repeat case_match; reflexivity. Qed.

Lemma pretty_N_ascii (n : N) : is_ascii (pretty n) = true.
Proof.
  assert (Hgo : forall x s, is_ascii s = true -> is_ascii (pretty_N_go x s) = true).
  { intros x. induction (N.lt_wf_0 x) as [x _ IH]; intros s Hs.
    destruct (decide (x = 0)%N) as [->|Hx]; [now rewrite pretty_N_go_0|].
    rewrite pretty_N_go_step by lia. apply IH; [apply N.div_lt; lia|].
    cbn [is_ascii]. now rewrite pretty_N_char_ascii, Hs. }
  unfold pretty, pretty_N. case_decide; [reflexivity | now apply Hgo].
Qed.

Lemma pretty_Z_ascii (z : Z) : is_ascii (pretty z) = true.
Proof.
  destruct z as [|p|p]; [reflexivity| |].
  - exact (pretty_N_ascii (N.pos p)).
  - change (pretty (Z.neg p)) with ("-" +:+ pretty (N.pos p)).
    now rewrite is_ascii_app, pretty_N_ascii.
Qed.

Lemma pad2_ascii (n : N) : is_ascii (pad2 n) = true.
Proof.
  unfold pad2. destruct (n <? 10)%N; [|apply pretty_N_ascii].
  now rewrite is_ascii_app, pretty_N_ascii.
Qed.

Lemma timestamp_ascii (t : struct_time) : is_ascii (strftime_at TIME_FORMAT t) = true.
Proof.
  rewrite timestamp_unfold.
  rewrite !is_ascii_app, pretty_N_ascii, !pad2_ascii. reflexivity.
Qed.

Lemma start_line_ascii (env : Env) (k : nat) :
  is_ascii (start_line (timestamp_at env k)) = true.
Proof.
  unfold start_line, timestamp_at. now rewrite !is_ascii_app, timestamp_ascii.
Qed.

Lemma head_line_ascii (env : Env) (k : nat) :
  is_ascii (head_line (timestamp_at env k)) = true.
Proof.
  unfold head_line, timestamp_at. now rewrite !is_ascii_app, timestamp_ascii.
Qed.

Lemma code_line_ascii (rc : Z) : is_ascii (code_line rc) = true.
Proof. unfold code_line. now rewrite !is_ascii_app, pretty_Z_ascii. Qed.


Lemma encode_error_line (c : codec) (err : string) :
  encode c (error_line err) = error_line <$> encode c err.
Proof. unfold error_line. now rewrite encode_frame. Qed.

Lemma encode_exception_record (env : Env) (c : codec) (k : nat) (d : string) :
  encode c (exception_record (timestamp_at env k) d) =
  exception_record (timestamp_at env k) <$> encode c d.
Proof.
  unfold exception_record.
  rewrite <- (append_assoc (timestamp_at env k)).
  rewrite encode_frame; [|unfold timestamp_at; now rewrite is_ascii_app, timestamp_ascii|reflexivity].
  destruct (encode c d); cbn [fmap option_fmap option_map]; [|reflexivity].
  now rewrite append_assoc.
Qed.

(** ** What each block of the script does to the world *)

Ltac reduce_world :=
  cbv beta iota;
  cbn [environ files ticks opens proc trace fst snd
       wrote tick opened refused record_event set_proc with_environ].

Ltac run_block :=
  cbv [log_startup log_termination on_exception with_open_append open_append
       TS time_strftime write get_returncode decode sys_exit raise ret bind];
  reduce_world.

(** Lines 28-30, case by case: the file cannot be opened; the line with
    the path cannot be encoded, and only the first line is written; both
    lines are written. *)
Lemma log_startup_run (env : Env) (w : World) (LOG SP : string) :
  log_startup LOG SP env w =
  match open_error env (opens w) LOG with
  | Some d => (Raise (PyException d), refused w)
  | None =>
      match encode (locale env) (path_line (timestamp_at env (S (ticks w))) SP) with
      | None =>
          (Raise (PyException
                    (encode_error env (path_line (timestamp_at env (S (ticks w))) SP))),
           tick (wrote LOG (start_line (timestamp_at env (ticks w)))
                   (start_line (timestamp_at env (ticks w)))
                   (tick (opened LOG w))))
      | Some line2 =>
          (Ok tt,
           wrote LOG (path_line (timestamp_at env (S (ticks w))) SP) line2
             (tick (wrote LOG (start_line (timestamp_at env (ticks w)))
                      (start_line (timestamp_at env (ticks w)))
                      (tick (opened LOG w)))))
      end
  end.
Proof.
  run_block. destruct (open_error env (opens w) LOG); [reflexivity|].
  reduce_world.
  change (strftime_at TIME_FORMAT (localtime env (ticks w)) +:+
          ": Starting RebasedCode Git Sync Runner" +:+ nl)
    with (start_line (timestamp_at env (ticks w))).
  rewrite (encode_ascii _ _ (start_line_ascii env (ticks w))).
  reduce_world.
  change (strftime_at TIME_FORMAT (localtime env (S (ticks w))) +:+
          ": Script path: " +:+ SP +:+ nl)
    with (path_line (timestamp_at env (S (ticks w))) SP).
  destruct (encode (locale env) (path_line (timestamp_at env (S (ticks w))) SP));
    reflexivity.
Qed.

(** Lines 32-34: the three lines are handed over, or one of the prints
    raises after those before it have been. *)
Lemma announce_cases (env : Env) (w : World) (here : string) :
  (Forall (fun t => print_error env t = None) (announcement here) /\
   announce (script_path here) (log_file here) (error_log here) env w =
     (Ok tt, printed (announcement here) w)) \/
  (exists k t e,
      announcement here !! k = Some t /\ print_error env t = Some e /\
      announce (script_path here) (log_file here) (error_log here) env w =
        (Raise (exn_of e), printed (take k (announcement here)) w)).
Proof.
  unfold announce, announcement. cbv [bind print].
  destruct (print_error env ("Starting RebasedCode Git Sync process..." +:+ nl))
    as [e|] eqn:E1.
  { right. exists 0, ("Starting RebasedCode Git Sync process..." +:+ nl), e.
    repeat split. exact E1. }
  destruct (print_error env (("Script path: " +:+ script_path here) +:+ nl))
    as [e|] eqn:E2.
  { right. exists 1, (("Script path: " +:+ script_path here) +:+ nl), e.
    repeat split. exact E2. }
  destruct (print_error env
              (("Logs will be written to " +:+ log_file here +:+ " and "
                +:+ error_log here) +:+ nl)) as [e|] eqn:E3.
  { right. exists 2, (("Logs will be written to " +:+ log_file here +:+ " and "
                       +:+ error_log here) +:+ nl), e.
    repeat split. exact E3. }
  left. split; [|reflexivity].
  repeat constructor; assumption.
Qed.

(** Lines 14-34, case by case. *)
Lemma startup_cases (env : Env) (w : World) :
  begun env w (fst (startup env w)) (snd (startup env w)).
Proof.
  remember (startup env w) as res eqn:R.
  unfold startup in R.
  cbv [bind setenv os_path_abspath_file os_getpid os_system ret] in R.
  destruct (abspath_file env) as [e|here] eqn:Ha.
  { subst res. cbn [fst snd]. now apply beg_lost. }
  change (record_event _ (record_event _ (with_environ _ _ w)))
    with (relabelled env w) in R.
  fold (script_path here) (log_file here) (error_log here) in R.
  rewrite log_startup_run in R.
  change (opens (relabelled env w)) with (opens w) in R.
  change (ticks (relabelled env w)) with (ticks w) in R.
  destruct (open_error env (opens w) (log_file here)) as [d|] eqn:Ho.
  { subst res. cbn [fst snd]. now apply (beg_refused env w here). }
  fold (half_launched env here w) in R.
  destruct (encode (locale env) _) as [line2|] eqn:He.
  2:{ subst res. cbn [fst snd]. now apply (beg_unencodable env w here). }
  fold (launched env here line2 w) in R.
  destruct (announce_cases env (launched env here line2 w) here)
    as [[Hp Hr]|(k & t & e & Hk & Hp & Hr)]; rewrite Hr in R; subst res; cbn [fst snd].
  - now apply beg_ready.
  - now apply (beg_mute env w here line2 k t e).
Qed.

(** Lines 54-57, case by case. *)
Lemma on_exception_cases (env : Env) (w : World) (el d : string) :
  handled env el d w (fst (on_exception el d env w)) (snd (on_exception el d env w)).
Proof.
  remember (on_exception el d env w) as res eqn:R.
  revert R. run_block.
  destruct (open_error env (opens w) el) as [d'|] eqn:Ho.
  { intros ->. cbn [fst snd]. now apply han_refused. }
  reduce_world.
  change (strftime_at TIME_FORMAT (localtime env (ticks w)) +:+
          ": Exception running git sync script: " +:+ d +:+ nl)
    with (exception_record (timestamp_at env (ticks w)) d).
  destruct (encode (locale env) (exception_record (timestamp_at env (ticks w)) d))
    as [bytes|] eqn:He; intros ->; cbn [fst snd].
  - now apply han_logged.
  - now apply han_unencodable.
Qed.

Lemma is_empty_false (s : string) : is_empty s = false <-> s <> EmptyString.
Proof.
  destruct s; cbn [is_empty]; split; intros H;
    try reflexivity; try discriminate; exfalso; now apply H.
Qed.

(** Lines 46-50, case by case. *)
Lemma log_termination_cases (env : Env) (w : World) (el err : string) (rc : Z) :
  child_returncode w = Some rc ->
  terminated env el err rc w
    (fst (log_termination el err env w)) (snd (log_termination el err env w)).
Proof.
  intros Hrc.
  remember (log_termination el err env w) as res eqn:R.
  revert R. run_block.
  destruct (open_error env (opens w) el) as [d'|] eqn:Ho.
  { intros ->. cbn [fst snd]. now apply ter_refused. }
  reduce_world.
  change (strftime_at TIME_FORMAT (localtime env (ticks w)) +:+
          ": Git sync process terminated unexpectedly" +:+ nl)
    with (head_line (timestamp_at env (ticks w))).
  rewrite (encode_ascii _ _ (head_line_ascii env (ticks w))).
  reduce_world.
  unfold child_returncode in *. reduce_world. rewrite Hrc.
  cbn [str_returncode].
  change ("Return code: " +:+ pretty rc +:+ nl) with (code_line rc).
  rewrite (encode_ascii _ _ (code_line_ascii rc)).
  reduce_world.
  fold (termination_begun env el rc w).
  destruct (is_empty err) eqn:Hemp.
  { intros ->. cbn [fst snd]. apply ter_silent; [exact Ho|].
    destruct err; [reflexivity | discriminate]. }
  apply is_empty_false in Hemp.
  destruct (utf8_valid err) eqn:Hv.
  2:{ intros ->. cbn [fst snd]. now apply ter_undecodable. }
  change ("Error output: " +:+ err +:+ nl) with (error_line err).
  destruct (encode (locale env) (error_line err)) as [line3|] eqn:He;
    intros ->; cbn [fst snd].
  - now apply ter_reported.
  - now apply ter_unencodable.
Qed.

(** ** Step 5 *)

Lemma spawn_and_wait_unfold (env : Env) (w : World) (sp : string) :
  spawn_and_wait sp env w =
  match spawn_error env with
  | Some e => (Raise (exn_of e), w)
  | None =>
      match files w !! "/bin/bash" with
      | None => (Raise (PyException (no_such_file "/bin/bash")), w)
      | Some _ =>
          match wait_interrupt env with
          | Some e => (Raise (exn_of e), spawned sp w)
          | None =>
              match run_child (files w) env ["/bin/bash"; sp] with
              | Forever => (Diverge, spawned sp w)
              | ExitsHolding _ => (Diverge, spawned sp w)
              | Exits out err rc => (Ok (out, err), waited sp rc w)
              end
          end
      end
  end.
Proof.
  unfold spawn_and_wait, waited, spawned.
  cbv [bind Popen communicate].
  destruct (spawn_error env); [reflexivity|].
  destruct (files w !! "/bin/bash"); [|reflexivity]. reduce_world.
  destruct (wait_interrupt env); [reflexivity|].
  cbn [args].
  destruct (run_child (files w) env ["/bin/bash"; sp]); reflexivity.
Qed.

(** Step 5 touches neither the files, nor the clock, nor the
    environment. *)
Lemma spawn_and_wait_frame (env : Env) (w w2 : World) (sp : string)
    (r : result (string * string)) :
  spawn_and_wait sp env w = (r, w2) ->
  files w2 = files w /\ ticks w2 = ticks w /\ opens w2 = opens w /\
  environ w2 = environ w /\
  (trace w2 = trace w \/ trace w2 = (trace w ++ [EvSpawn ["/bin/bash"; sp]])%list).
Proof.
  rewrite spawn_and_wait_unfold.
  destruct (spawn_error env); [intros [= <- <-]; auto 6|].
  destruct (files w !! "/bin/bash"); [|intros [= <- <-]; auto 6].
  destruct (wait_interrupt env); [intros [= <- <-]; auto 6|].
  destruct (run_child _ _ _); intros [= <- <-]; auto 6.
Qed.

(** When step 5 returns, the child has exited and its pipes are at their
    end, with what [run_child] says, and [process.returncode] holds its
    status. *)
Lemma spawn_and_wait_returns (env : Env) (w w2 : World) (sp out err : string) :
  spawn_and_wait sp env w = (Ok (out, err), w2) ->
  exists rc,
    run_child (files w) env ["/bin/bash"; sp] = Exits out err rc /\
    child_returncode w2 = Some rc.
Proof.
  rewrite spawn_and_wait_unfold.
  destruct (spawn_error env); [discriminate|].
  destruct (files w !! "/bin/bash"); [|discriminate].
  destruct (wait_interrupt env); [discriminate|].
  destruct (run_child _ _ _) as [|o e rc|rc] eqn:E; try discriminate.
  intros [= <- <- <-]. exists rc. split; reflexivity.
Qed.

(** Step 5 never raises [SystemExit]. *)
Lemma spawn_and_wait_no_exit (env : Env) (w w2 : World) (sp : string) (n : Z) :
  spawn_and_wait sp env w <> (Raise (SystemExit n), w2).
Proof.
  rewrite spawn_and_wait_unfold.
  destruct (spawn_error env) as [[]|]; try discriminate.
  destruct (files w !! "/bin/bash"); [|discriminate].
  destruct (wait_interrupt env) as [[]|]; try discriminate.
  destruct (run_child _ _ _); discriminate.
Qed.

(** ** The [try] statement, case by case *)

Lemma supervise_cases (env : Env) (sp el : string) (w1 : World) :
  supervised env sp el w1
    (fst (supervise sp el env w1)) (snd (supervise sp el env w1)).
Proof.
  remember (supervise sp el env w1) as res eqn:R.
  unfold supervise, try_except_Exception, run_script in R.
  cbv [bind sys_exit raise] in R.
  destruct (spawn_and_wait sp env w1) as [[[out err]|e|] w2] eqn:E.
  - destruct (spawn_and_wait_returns _ _ _ _ _ _ E) as (rc & _ & Hrc).
    cbn [snd] in R.
    pose proof (log_termination_cases env w2 el err rc Hrc) as T.
    destruct (log_termination el err env w2) as [[[]|e|] w3]; cbn [fst snd] in T.
    + subst res. cbn [fst snd]. eapply sup_terminated; eassumption.
    + destruct e as [n|d|d]; try (inversion T; fail).
      pose proof (on_exception_cases env w3 el d) as H.
      rewrite <- R in H. eapply sup_failed; eassumption.
    + inversion T.
  - destruct e as [n|d|d].
    + subst res. cbn [fst snd]. apply sup_escapes; [exact E | discriminate].
    + pose proof (on_exception_cases env w2 el d) as H.
      rewrite <- R in H. eapply sup_caught; eassumption.
    + subst res. cbn [fst snd]. apply sup_escapes; [exact E | discriminate].
  - subst res. cbn [fst snd]. apply sup_blocks; exact E.
Qed.

(** ** The whole run *)

(** A run is a startup that fails, or a startup that returns followed by
    the [try] statement. *)
Lemma main_cases (env : Env) (w : World) :
  (exists e, begun env w (Raise e) (final env w) /\ outcome env w = Raise e) \/
  (exists sp el w1,
      startup env w = (Ok (sp, el), w1) /\
      begun env w (Ok (sp, el)) w1 /\
      supervised env sp el w1 (outcome env w) (final env w)).
Proof.
  pose proof (startup_cases env w) as B.
  unfold outcome, final, main, bind.
  destruct (startup env w) as [[[sp el]|e|] w1] eqn:E; cbn [fst snd] in *.
  - right. exists sp, el, w1. split; [reflexivity|]. split; [exact B|].
    apply supervise_cases.
  - left. exists e. split; [exact B | reflexivity].
  - inversion B.
Qed.

(** When [startup] returns, it returns the paths next to the launcher and
    the world [started]. *)
Lemma startup_inv (env : Env) (w w1 : World) (sp el : string) :
  startup env w = (Ok (sp, el), w1) ->
  exists here line2,
    abspath_file env = inr here /\ sp = script_path here /\ el = error_log here /\
    open_error env (opens w) (log_file here) = None /\
    encode (locale env)
      (path_line (timestamp_at env (S (ticks w))) (script_path here)) = Some line2 /\
    w1 = started env here line2 w.
Proof.
  intros H. pose proof (startup_cases env w) as B. rewrite H in B. cbn [fst snd] in B.
  inversion B as [| | | |here line2 Ha Ho He Hp]. subst.
  exists here, line2. repeat split; assumption.
Qed.

Lemma main_supervised (env : Env) (w w1 : World) (sp el : string) :
  startup env w = (Ok (sp, el), w1) ->
  supervised env sp el w1 (outcome env w) (final env w).
Proof.
  intros H. unfold outcome, final, main, bind. rewrite H. cbn [fst snd].
  apply supervise_cases.
Qed.

(** ** Worlds *)

Lemma content_wrote (p t b : string) (w : World) :
  content (files (wrote p t b w)) p = content (files w) p +:+ b.
Proof. cbn [wrote files]. apply content_insert. Qed.

Lemma content_opened (p q : string) (w : World) :
  content (files (opened p w)) q = content (files w) q.
Proof.
  cbn [opened files]. destruct (decide (p = q)) as [->|H].
  - apply content_insert.
  - now apply content_insert_ne.
Qed.

Lemma printed_trace (texts : list string) (w : World) :
  trace (printed texts w) = (trace w ++ map EvPrint texts)%list.
Proof.
  revert w. induction texts as [|t texts IH]; intros w; cbn [printed map].
  - now rewrite app_nil_r.
  - rewrite IH. cbn [record_event trace]. now rewrite <- (assoc_L (++)).
Qed.

Lemma printed_rest (texts : list string) (w : World) :
  environ (printed texts w) = environ w /\ files (printed texts w) = files w /\
  ticks (printed texts w) = ticks w /\ opens (printed texts w) = opens w /\
  proc (printed texts w) = proc w.
Proof.
  revert w. induction texts as [|t texts IH]; intros w; cbn [printed]; [auto|].
  destruct (IH (record_event (EvPrint t) w)) as (-> & -> & -> & -> & ->). auto.
Qed.

Lemma printed_files (texts : list string) (w : World) :
  files (printed texts w) = files w.
Proof. apply printed_rest. Qed.

Lemma printed_ticks (texts : list string) (w : World) :
  ticks (printed texts w) = ticks w.
Proof. apply printed_rest. Qed.

Lemma printed_opens (texts : list string) (w : World) :
  opens (printed texts w) = opens w.
Proof. apply printed_rest. Qed.

Lemma printed_environ (texts : list string) (w : World) :
  environ (printed texts w) = environ w.
Proof. apply printed_rest. Qed.

(** ** Worlds that grow *)

Section Grows.
Variable ok : event -> Prop.
Variable path : string.

Lemma grows_refl (w : World) : grows ok path w w.
Proof.
  split; [reflexivity|]. split.
  - intros c Hc. exists EmptyString. now rewrite append_nil_r.
  - exists []. split; [now rewrite app_nil_r | constructor].
Qed.

(** A step that keeps the files and adds no event. *)
Lemma grows_quiet (w w0 w' : World) :
  files w' = files w0 -> trace w' = trace w0 ->
  grows ok path w w0 -> grows ok path w w'.
Proof. intros Hf Ht (A & B & C). unfold grows. rewrite Hf, Ht. auto. Qed.

(** A step that keeps the files and adds one event. *)
Lemma grows_event (ev : event) (w w0 w' : World) :
  files w' = files w0 -> trace w' = (trace w0 ++ [ev])%list -> ok ev ->
  grows ok path w w0 -> grows ok path w w'.
Proof.
  intros Hf Ht Hev (A & B & evs & C & D). unfold grows. rewrite Hf, Ht.
  split; [exact A|]. split; [exact B|].
  exists (evs ++ [ev])%list. split.
  - now rewrite C, <- (assoc_L (++)).
  - apply Forall_app. split; [exact D | now constructor].
Qed.

Lemma grows_tick (w w0 : World) : grows ok path w w0 -> grows ok path w (tick w0).
Proof. now apply grows_quiet. Qed.

Lemma grows_refused (w w0 : World) : grows ok path w w0 -> grows ok path w (refused w0).
Proof. now apply grows_quiet. Qed.

Lemma grows_set_proc (p : process) (w w0 : World) :
  grows ok path w w0 -> grows ok path w (set_proc p w0).
Proof. now apply grows_quiet. Qed.

Lemma grows_with_environ (k v : string) (w w0 : World) :
  grows ok path w w0 -> grows ok path w (with_environ k v w0).
Proof. now apply grows_quiet. Qed.

Lemma grows_record_event (ev : event) (w w0 : World) :
  ok ev -> grows ok path w w0 -> grows ok path w (record_event ev w0).
Proof. intros H. now apply (grows_event ev). Qed.

Lemma grows_files (ev : event) (fs : string) (w w0 w' : World) :
  files w' = <[path := content (files w0) path +:+ fs]> (files w0) ->
  trace w' = (trace w0 ++ [ev])%list -> ok ev ->
  grows ok path w w0 -> grows ok path w w'.
Proof.
  intros Hf Ht Hev (A & B & evs & C & D). unfold grows. rewrite Hf, Ht.
  split; [|split].
  - intros p Hp. rewrite lookup_insert_ne by congruence. now apply A.
  - intros c Hc. destruct (B c Hc) as (more & Hm).
    rewrite lookup_insert_eq. unfold content. rewrite Hm. cbn [from_option id].
    exists (more +:+ fs). now rewrite append_assoc.
  - exists (evs ++ [ev])%list. split.
    + now rewrite C, <- (assoc_L (++)).
    + apply Forall_app. split; [exact D | now constructor].
Qed.

Lemma grows_opened (w w0 : World) :
  ok (EvOpen path) -> grows ok path w w0 -> grows ok path w (opened path w0).
Proof.
  intros H. apply (grows_files (EvOpen path) EmptyString); [|reflexivity|exact H].
  cbn [opened files]. now rewrite append_nil_r.
Qed.

Lemma grows_wrote (t b : string) (w w0 : World) :
  ok (EvWrite path t) -> grows ok path w w0 -> grows ok path w (wrote path t b w0).
Proof. intros H. now apply (grows_files (EvWrite path t) b). Qed.

Lemma grows_printed (texts : list string) (w w0 : World) :
  (forall t, ok (EvPrint t)) ->
  grows ok path w w0 -> grows ok path w (printed texts w0).
Proof.
  intros H. revert w0. induction texts as [|t texts IH]; intros w0 G; cbn [printed].
  - exact G.
  - apply IH. now apply grows_record_event.
Qed.
End Grows.

(** Nothing is lost from a file of a world that grows. *)
Lemma grows_extends (ok : event -> Prop) (path : string) (w w' : World) (p c : string) :
  grows ok path w w' ->
  files w !! p = Some c -> exists more, files w' !! p = Some (c +:+ more).
Proof.
  intros (A & B & _) Hc. destruct (decide (p = path)) as [->|Hp].
  - now apply B.
  - exists EmptyString. rewrite append_nil_r, A by exact Hp. exact Hc.
Qed.

Lemma grows_trans (ok : event -> Prop) (path : string) (w w0 w' : World) :
  grows ok path w w0 -> grows ok path w0 w' -> grows ok path w w'.
Proof.
  intros (A & B & evs & C & D) (A' & B' & evs' & C' & D').
  split; [|split].
  - intros p Hp. rewrite A', A by exact Hp. reflexivity.
  - intros c Hc. destruct (B c Hc) as (m & Hm). destruct (B' _ Hm) as (m' & Hm').
    exists (m +:+ m'). now rewrite <- append_assoc.
  - exists (evs ++ evs')%list. split.
    + now rewrite C', C, <- (assoc_L (++)).
    + apply Forall_app. auto.
Qed.

Ltac grow :=
  repeat match goal with
         | |- grows _ _ _ (tick _) => apply grows_tick
         | |- grows _ _ _ (refused _) => apply grows_refused
         | |- grows _ _ _ (set_proc _ _) => apply grows_set_proc
         | |- grows _ _ _ (with_environ _ _ _) => apply grows_with_environ
         | |- grows _ _ _ (opened _ _) =>
             apply grows_opened; [first [exact I | hnf; reflexivity]|]
         | |- grows _ _ _ (wrote _ _ _ _) =>
             apply grows_wrote; [first [exact I | hnf; reflexivity]|]
         | |- grows _ _ _ (record_event _ _) =>
             apply grows_record_event; [first [exact I | hnf; reflexivity]|]
         | |- grows _ _ _ (printed _ _) =>
             apply grows_printed; [intros; exact I|]
         end;
  try apply grows_refl.

(** ** How each part of the script changes the world *)

Lemma started_trace (env : Env) (here line2 : string) (w : World) :
  trace (started env here line2 w) = (trace w ++ startup_events env (ticks w) here)%list.
Proof.
  unfold started. rewrite printed_trace.
  cbn [launched half_launched relabelled unbuffered
       wrote tick opened record_event with_environ trace ticks].
  rewrite <- !(assoc_L (++)). reflexivity.
Qed.

Lemma started_ticks (env : Env) (here line2 : string) (w : World) :
  ticks (started env here line2 w) = 2 + ticks w.
Proof. unfold started. rewrite printed_ticks. reflexivity. Qed.

Lemma started_opens (env : Env) (here line2 : string) (w : World) :
  opens (started env here line2 w) = S (opens w).
Proof. unfold started. rewrite printed_opens. reflexivity. Qed.

(** A run that cannot resolve its path stops there. *)
Lemma begun_lost (env : Env) (w w1 : World) (r : result (string * string)) (e : raised) :
  abspath_file env = inl e -> begun env w r w1 ->
  r = Raise (exn_of e) /\ w1 = unbuffered w.
Proof. intros Ha B. inversion B; subst; try congruence. split; congruence. Qed.

(** Lines 14-34 open and write the startup log only. *)
Lemma begun_grows (env : Env) (w w1 : World) (r : result (string * string)) (here : string) :
  abspath_file env = inr here -> begun env w r w1 ->
  grows (startup_event (log_file here)) (log_file here) w w1.
Proof.
  intros Ha B.
  inversion B as [e Ha'|h d Ha'|h Ha'|h line2 k t e Ha'|h line2 Ha']; subst;
    rewrite Ha in Ha'; try discriminate Ha'; injection Ha' as <-;
    unfold started, launched, half_launched, relabelled, unbuffered; grow.
Qed.

Lemma begun_environ (env : Env) (w w1 : World) (r : result (string * string)) :
  begun env w r w1 -> environ w1 = <["PYTHONUNBUFFERED" := "1"]> (environ w).
Proof.
  intros B. inversion B; subst;
    unfold started; rewrite ?printed_environ; reflexivity.
Qed.

(** The startup never ends in [SystemExit], and it ends. *)
Lemma begun_result (env : Env) (w w1 : World) (r : result (string * string)) :
  begun env w r w1 ->
  match r with
  | Ok _ => True
  | Raise (SystemExit _) => False
  | Raise _ => True
  | Diverge => False
  end.
Proof.
  intros B. inversion B; subst; try exact I;
    match goal with |- context [exn_of ?e] => destruct e; exact I end.
Qed.

Lemma handled_grows (env : Env) (el d : string) (w w' : World) (r : result unit) :
  handled env el d w r w' -> grows (error_event el) el w w'.
Proof. intros H. inversion H; subst; grow. Qed.

Lemma terminated_grows (env : Env) (el err : string) (rc : Z) (w w' : World)
    (r : result unit) :
  terminated env el err rc w r w' -> grows (error_event el) el w w'.
Proof. intros H. inversion H; subst; unfold termination_begun; grow. Qed.

Lemma spawn_and_wait_grows (env : Env) (sp el : string) (w w2 : World)
    (r : result (string * string)) :
  spawn_and_wait sp env w = (r, w2) -> grows (error_event el) el w w2.
Proof.
  rewrite spawn_and_wait_unfold.
  destruct (spawn_error env); [intros [= <- <-]; grow|].
  destruct (files w !! "/bin/bash"); [|intros [= <- <-]; grow].
  destruct (wait_interrupt env); [intros [= <- <-]; unfold spawned; grow|].
  destruct (run_child _ _ _); intros [= <- <-]; unfold waited, spawned; grow.
Qed.

(** Lines 37-57 start the child and open and write the error log; they
    do nothing else. *)
Lemma supervised_grows (env : Env) (sp el : string) (w1 w' : World) (r : result unit) :
  supervised env sp el w1 r w' -> grows (error_event el) el w1 w'.
Proof.
  intros S.
  destruct S as [e w2 E N|w2 E|d w2 r w' E H|out err rc w2 w3 E RC T
                |out err rc w2 d w3 r w' E RC T H];
    pose proof (spawn_and_wait_grows _ _ el _ _ _ E) as G;
    try exact G.
  - eapply grows_trans; [exact G|]. eapply handled_grows; eassumption.
  - eapply grows_trans; [exact G|]. eapply terminated_grows; eassumption.
  - eapply grows_trans; [exact G|].
    eapply grows_trans; [eapply terminated_grows | eapply handled_grows]; eassumption.
Qed.

Lemma handled_environ (env : Env) (el d : string) (w w' : World) (r : result unit) :
  handled env el d w r w' -> environ w' = environ w.
Proof. intros H. inversion H; subst; reflexivity. Qed.

Lemma terminated_environ (env : Env) (el err : string) (rc : Z) (w w' : World)
    (r : result unit) :
  terminated env el err rc w r w' -> environ w' = environ w.
Proof. intros H. inversion H; subst; reflexivity. Qed.

Lemma supervised_environ (env : Env) (sp el : string) (w1 w' : World) (r : result unit) :
  supervised env sp el w1 r w' -> environ w' = environ w1.
Proof.
  intros S.
  destruct S as [e w2 E N|w2 E|d w2 r w' E H|out err rc w2 w3 E RC T
                |out err rc w2 d w3 r w' E RC T H];
    destruct (spawn_and_wait_frame _ _ _ _ _ E) as (_ & _ & _ & He & _);
    rewrite <- He;
    repeat match goal with
           | X : handled _ _ _ _ _ _ |- _ => apply handled_environ in X
           | X : terminated _ _ _ _ _ _ _ |- _ => apply terminated_environ in X
           end; congruence.
Qed.

(** The handler ends in [sys.exit(1)] or in an exception of its own. *)
Lemma handled_result (env : Env) (el d : string) (w w' : World) (r : result unit) :
  handled env el d w r w' ->
  r = Raise (SystemExit 1) \/ exists d', r = Raise (PyException d').
Proof. intros H. inversion H; subst; eauto. Qed.

(** How lines 37-57 can end. *)
Lemma supervised_result (env : Env) (sp el : string) (w1 w' : World) (r : result unit) :
  supervised env sp el w1 r w' ->
  match r with
  | Ok _ => False
  | Raise (SystemExit n) => n = 1%Z
  | _ => True
  end.
Proof.
  intros S.
  destruct S as [e w2 E N|w2 E|d w2 r w' E H|out err rc w2 w3 E RC T
                |out err rc w2 d w3 r w' E RC T H];
    try exact I; try reflexivity.
  - destruct e as [n|d|d]; try exact I.
    exfalso. eapply spawn_and_wait_no_exit. exact E.
  - destruct (handled_result _ _ _ _ _ _ H) as [->|[d' ->]]; [reflexivity | exact I].
  - destruct (handled_result _ _ _ _ _ _ H) as [->|[d' ->]]; [reflexivity | exact I].
Qed.

(** Once step 5 has returned or raised an [Exception], the run ends in
    [sys.exit(1)] or in an uncaught [Exception] of the report itself. *)
Lemma supervised_terminal (env : Env) (sp el : string) (w1 w2 w' : World)
    (r0 : result (string * string)) (r : result unit) :
  supervised env sp el w1 r w' ->
  spawn_and_wait sp env w1 = (r0, w2) ->
  match r0 with Ok _ => True | Raise (PyException _) => True | _ => False end ->
  r = Raise (SystemExit 1) \/ exists d', r = Raise (PyException d').
Proof.
  intros S E0 Hr.
  destruct S as [e w3 E N|w3 E|d w3 r w' E H|out err rc w3 w4 E RC T
                |out err rc w3 d w4 r w' E RC T H];
    rewrite E0 in E; injection E as -> ->; try contradiction.
  - destruct e as [n|d|d]; try contradiction. exfalso. now apply (N d).
  - eapply handled_result; eassumption.
  - now left.
  - eapply handled_result; eassumption.
Qed.

(** ** Runs, by what step 5 does *)

Lemma startup_begun (env : Env) (w w1 : World) (r : result (string * string)) :
  startup env w = (r, w1) -> begun env w r w1.
Proof. intros H. pose proof (startup_cases env w) as B. now rewrite H in B. Qed.

(** The startup leaves every file but the startup log as it was. *)
Lemma startup_lookup (env : Env) (w w1 : World) (r : result (string * string))
    (here p : string) :
  abspath_file env = inr here -> startup env w = (r, w1) ->
  p <> log_file here -> files w1 !! p = files w !! p.
Proof.
  intros Ha Hs Hp. apply startup_begun in Hs.
  destruct (begun_grows _ _ _ _ _ Ha Hs) as (A & _). now apply A.
Qed.

Lemma startup_error_log (env : Env) (w w1 : World) (sp el : string) :
  startup env w = (Ok (sp, el), w1) -> files w1 !! el = files w !! el.
Proof.
  intros Hs. destruct (startup_inv _ _ _ _ _ Hs) as (here & l2 & Ha & _ & -> & _).
  eapply startup_lookup; [exact Ha | exact Hs|].
  intros H. symmetry in H. revert H. apply log_file_not_error_log.
Qed.


Lemma startup_bash (env : Env) (w w1 : World) (sp el : string) :
  startup env w = (Ok (sp, el), w1) -> files w1 !! "/bin/bash" = files w !! "/bin/bash".
Proof.
  intros Hs. destruct (startup_inv _ _ _ _ _ Hs) as (here & l2 & Ha & _).
  eapply startup_lookup; [exact Ha | exact Hs|].
  intros H. symmetry in H. revert H. apply log_file_not_bash.
Qed.

Lemma startup_ticks (env : Env) (w w1 : World) (sp el : string) :
  startup env w = (Ok (sp, el), w1) -> ticks w1 = 2 + ticks w /\ opens w1 = S (opens w).
Proof.
  intros Hs. destruct (startup_inv _ _ _ _ _ Hs) as (here & l2 & _ & _ & _ & _ & _ & ->).
  split; [apply started_ticks | apply started_opens].
Qed.




(** Step 5 raises something that is no [Exception]: nothing more runs. *)
Lemma run_escaped (env : Env) (w w1 w2 : World) (sp el d : string) :
  startup env w = (Ok (sp, el), w1) ->
  spawn_and_wait sp env w1 = (Raise (PyBaseException d), w2) ->
  outcome env w = Raise (PyBaseException d) /\ final env w = w2.
Proof.
  intros Hs H. unfold outcome, final, main, bind. rewrite Hs. cbn [fst snd].
  unfold supervise, try_except_Exception, run_script. cbv [bind]. rewrite H.
  split; reflexivity.
Qed.


(** The startup fails: nothing more runs. *)
Lemma run_not_started (env : Env) (w w1 : World) (e : exn) :
  startup env w = (Raise e, w1) -> outcome env w = Raise e /\ final env w = w1.
Proof.
  intros Hs. unfold outcome, final, main, bind. rewrite Hs. split; reflexivity.
Qed.

Lemma files_tick (w : World) : files (tick w) = files w.
Proof. reflexivity. Qed.

Lemma files_refused (w : World) : files (refused w) = files w.
Proof. reflexivity. Qed.

Ltac see_content :=
  unfold termination_begun;
  repeat (progress rewrite ?content_wrote, ?content_opened, ?files_tick, ?files_refused).

Lemma content_eq (fs fs' : gmap string string) (p : string) :
  fs' !! p = fs !! p -> content fs' p = content fs p.
Proof. unfold content. now intros ->. Qed.

(** What the error log holds when the [try] is entered and when step 5 is
    over is what it held before the run. *)
Lemma error_log_before (env : Env) (w w1 w2 : World) (sp el : string)
    (r : result (string * string)) :
  startup env w = (Ok (sp, el), w1) ->
  spawn_and_wait sp env w1 = (r, w2) ->
  content (files w2) el = content (files w) el /\ files w2 !! el = files w !! el /\
  ticks w2 = ticks w1 /\ opens w2 = opens w1.
Proof.
  intros Hs H. destruct (spawn_and_wait_frame _ _ _ _ _ H) as (Hf & Ht & Ho & _).
  rewrite Hf. pose proof (startup_error_log _ _ _ _ _ Hs) as E.
  repeat split; try assumption. now apply content_eq.
Qed.

(** * The claims *)

(** ** Exit status *)

Lemma outcome_shape (env : Env) (w : World) :
  match outcome env w with
  | Ok _ => False
  | Raise (SystemExit n) => n = 1%Z
  | _ => True
  end.
Proof.
  destruct (main_cases env w) as [(e & B & ->)|(sp & el & w1 & _ & _ & S)].
  - apply begun_result in B. destruct e; [contradiction | exact I..].
  - eapply supervised_result; eassumption.
Qed.

Lemma terminal_outcome (env : Env) (w : World) :
  terminal_branch_reached env w ->
  outcome env w = Raise (SystemExit 1) \/ exists d, outcome env w = Raise (PyException d).
Proof.
  intros (sp & el & w1 & r & w2 & Hs & H & Hr).
  eapply supervised_terminal; [apply (main_supervised _ _ _ _ _ Hs) | exact H | exact Hr].
Qed.

(** C3.  A run that reaches a terminal branch ends with a non-zero exit
    status, and no run at all ends with exit status zero. *)
Theorem exit_status_nonzero (env : Env) (w : World) :
  (terminal_branch_reached env w ->
   exists n, exit_status env (outcome env w) = Some n /\ n <> 0%Z) /\
  (forall n, exit_status env (outcome env w) = Some n -> n <> 0%Z).
Proof.
  split.
  - intros T. destruct (terminal_outcome env w T) as [->|[d ->]];
      cbn [exit_status]; destruct (exit_flush_fails env); eexists; split;
        try reflexivity; discriminate.
  - intros n. pose proof (outcome_shape env w) as O.
    destruct (outcome env w) as [[]|[m|d|d]|]; cbn [exit_status];
      try contradiction; try discriminate;
      destruct (exit_flush_fails env); intros [= <-]; subst; discriminate.
Qed.

Lemma exit_status_nonzero_witness :
  exists n, exit_status env_boom (outcome env_boom w_ready) = Some n /\ n <> 0%Z.
Proof.
  apply (proj1 (exit_status_nonzero env_boom w_ready)).
  exists (script_path here_sync), (error_log here_sync), boom_started.
  eexists. exists boom_exited.
  split; [vm_compute; reflexivity|].
  split; [vm_compute; reflexivity | exact I].
Defined.

(** C10, as the code has it.  In the branch that runs when the child has
    exited, and in the branch that runs when an exception of step 5 is
    caught, the launcher's exit status is 1 when the interpreter can flush
    its standard streams on the way out, and 120 when it cannot. *)
Theorem exit_status_one_or_120 (env : Env) (w : World) :
  terminal_branch_reached env w ->
  exit_status env (outcome env w) =
    Some (if exit_flush_fails env then 120%Z else 1%Z).
Proof.
  intros T. destruct (terminal_outcome env w T) as [->|[d ->]]; reflexivity.
Qed.

Lemma exit_status_one_or_120_witness :
  exit_status env_boom (outcome env_boom w_ready) = Some 1%Z.
Proof.
  apply (exit_status_one_or_120 env_boom w_ready).
  exists (script_path here_sync), (error_log here_sync), boom_started.
  eexists. exists boom_exited.
  split; [vm_compute; reflexivity|].
  split; [vm_compute; reflexivity | exact I].
Defined.

(** C10 as stated fails: the child has exited, the Termination Record is
    written and line 52 runs [sys.exit(1)], yet the launcher, whose
    standard output cannot be flushed, ends with status 120; likewise when
    the handler of line 54 has run. *)
Lemma exit_status_120_when_flush_fails :
  (exists out err w2,
      spawn_and_wait (script_path here_sync) env_clogged
        (snd (startup env_clogged w_ready)) = (Ok (out, err), w2)) /\
  outcome env_clogged w_ready = Raise (SystemExit 1) /\
  exit_status env_clogged (outcome env_clogged w_ready) = Some 120%Z /\
  (exists d w2,
      spawn_and_wait (script_path here_sync) env_clogged
        (snd (startup env_clogged w_no_bash)) = (Raise (PyException d), w2)) /\
  outcome env_clogged w_no_bash = Raise (SystemExit 1) /\
  exit_status env_clogged (outcome env_clogged w_no_bash) = Some 120%Z.
Proof.
  split; [do 3 eexists; vm_compute; reflexivity|].
  split; [vm_compute; reflexivity|].
  split; [vm_compute; reflexivity|].
  split; [do 2 eexists; vm_compute; reflexivity|].
  split; vm_compute; reflexivity.
Qed.

(** ** Exceptions *)

(** Without bash the spawn raises [FileNotFoundError], which the handler
    reports. *)
Example no_bash_error_log :
  outcome env_boom w_no_bash = Raise (SystemExit 1) /\
  lines (content (files (final env_boom w_no_bash)) (error_log here_sync)) =
    ["2024-03-09 07:05:02: Exception running git sync script: [Errno 2] No such file or directory: '/bin/bash'"].
Proof. split; vm_compute; reflexivity. Qed.






(** ** The writes of a trace *)

Lemma writes_to_app (p : string) (a b : list event) :
  writes_to p (a ++ b) = (writes_to p a ++ writes_to p b)%list.
Proof. unfold writes_to. apply omap_app. Qed.

Lemma writes_to_cons (p : string) (ev : event) (evs : list event) :
  writes_to p (ev :: evs) =
  match ev with
  | EvWrite q t => if String.eqb q p then t :: writes_to p evs else writes_to p evs
  | _ => writes_to p evs
  end.
Proof.
  destruct ev as [c|c|q|q t|t|a]; try reflexivity.
  unfold writes_to. cbn [omap list_omap]. destruct (String.eqb q p); reflexivity.
Qed.

Lemma writes_to_other (p el : string) (evs : list event) :
  p <> el -> Forall (error_event el) evs -> writes_to p evs = [].
Proof.
  intros Hp. induction 1 as [|ev evs Hev _ IH]; [reflexivity|].
  rewrite writes_to_cons, IH.
  destruct ev as [c|c|q|q t|t|a]; try reflexivity.
  cbn in Hev. subst q.
  destruct (String.eqb_spec el p); [congruence | reflexivity].
Qed.

Lemma writes_to_startup (p lf : string) (evs : list event) :
  p <> lf -> Forall (startup_event lf) evs -> writes_to p evs = [].
Proof.
  intros Hp. induction 1 as [|ev evs Hev _ IH]; [reflexivity|].
  rewrite writes_to_cons, IH.
  destruct ev as [c|c|q|q t|t|a]; try reflexivity.
  cbn in Hev. subst q.
  destruct (String.eqb_spec lf p); [congruence | reflexivity].
Qed.

Lemma writes_to_wrote (p t b : string) (w : World) :
  writes_to p (trace (wrote p t b w)) = (writes_to p (trace w) ++ [t])%list.
Proof.
  cbn [wrote trace]. rewrite writes_to_app, writes_to_cons, String.eqb_refl.
  reflexivity.
Qed.

Lemma writes_to_opened (p q : string) (w : World) :
  writes_to p (trace (opened q w)) = writes_to p (trace w).
Proof. cbn [opened trace]. rewrite writes_to_app. apply app_nil_r. Qed.

Lemma trace_tick (w : World) : trace (tick w) = trace w.
Proof. reflexivity. Qed.

Lemma trace_refused (w : World) : trace (refused w) = trace w.
Proof. reflexivity. Qed.

Ltac see_writes :=
  unfold termination_begun;
  repeat (progress rewrite ?writes_to_wrote, ?writes_to_opened, ?trace_tick, ?trace_refused).

(** ** The Termination Record, line by line *)

Lemma termination_record_lines (ts : string) (rc : Z) (oerr : option string) :
  termination_record ts rc oerr =
  head_line ts +:+ code_line rc +:+
  match oerr with Some t => error_line t | None => EmptyString end.
Proof.
  unfold termination_record, head_line, code_line, error_line.
  now rewrite !append_assoc.
Qed.

(** Lines 46-50 when the error log can be opened: the record is written,
    with the child's error output when there is some that is UTF-8 and
    that the locale can encode, and without it otherwise; in the latter
    case an exception leaves the block unless there was no output. *)
Lemma terminated_opened (env : Env) (el err : string) (rc : Z) (w w' : World)
    (r : result unit) :
  terminated env el err rc w r w' ->
  open_error env (opens w) el = None ->
  exists oerr,
    content (files w') el =
      content (files w) el +:+ termination_record (timestamp_at env (ticks w)) rc oerr /\
    writes_to el (trace w') =
      (writes_to el (trace w) ++
       head_line (timestamp_at env (ticks w)) :: code_line rc ::
       match oerr with Some _ => [error_line err] | None => [] end)%list /\
    ticks w' = S (ticks w) /\ opens w' = S (opens w) /\
    ((r = Ok tt /\ err = EmptyString /\ oerr = None) \/
     (r = Ok tt /\ err <> EmptyString /\ utf8_valid err = true /\
      exists e', encode (locale env) err = Some e' /\ oerr = Some e') \/
     (exists d, r = Raise (PyException d) /\ err <> EmptyString /\
        (utf8_valid err = false \/ encode (locale env) err = None) /\ oerr = None)).
Proof.
  intros T Ho.
  inversion T as [d Ho'|Ho' He|Ho' Hne Hv|Ho' Hne Hv He|line3 Ho' Hne Hv He]; subst.
  - congruence.
  - exists None. rewrite termination_record_lines. see_content. see_writes.
    rewrite <- !(assoc_L (++)).
    repeat split; try (now rewrite ?append_assoc, ?append_nil_r). auto.
  - exists None. rewrite termination_record_lines. see_content. see_writes.
    rewrite <- !(assoc_L (++)).
    repeat split; try (now rewrite ?append_assoc, ?append_nil_r).
    right. right. eauto 7.
  - exists None. rewrite termination_record_lines. see_content. see_writes.
    rewrite <- !(assoc_L (++)).
    repeat split; try (now rewrite ?append_assoc, ?append_nil_r).
    right. right. eexists. split; [reflexivity|]. split; [exact Hne|].
    split; [|reflexivity]. right.
    rewrite encode_error_line in He. now destruct (encode (locale env) err).
  - rewrite encode_error_line in He.
    destruct (encode (locale env) err) as [e'|] eqn:Hee; [|discriminate].
    injection He as <-.
    exists (Some e'). rewrite termination_record_lines. see_content. see_writes.
    rewrite <- !(assoc_L (++)).
    repeat split; try (now rewrite ?append_assoc, ?append_nil_r).
    right. left. eauto 7.
Qed.

(** What the handler adds to the error log: one Exception Record, or
    nothing when the file cannot be opened or the record not encoded. *)
Lemma handled_tail (env : Env) (el d : string) (w w' : World) (r : result unit) :
  handled env el d w r w' ->
  exists tail,
    content (files w') el = content (files w) el +:+ tail /\
    (tail = EmptyString \/
     exists d', tail = exception_record (timestamp_at env (ticks w)) d').
Proof.
  intros H. inversion H as [d0 Ho'|Ho' He'|bytes Ho' He']; subst.
  - exists EmptyString. see_content. rewrite append_nil_r. auto.
  - exists EmptyString. see_content. rewrite append_nil_r. auto.
  - rewrite encode_exception_record in He'.
    destruct (encode (locale env) d) as [d'|]; [|discriminate]. injection He' as <-.
    eexists. see_content. split; [reflexivity|]. eauto.
Qed.

(** ** A missing script *)


(** The startup writes nothing to the error log. *)
Lemma startup_writes (env : Env) (w w1 : World) (sp el : string) :
  startup env w = (Ok (sp, el), w1) ->
  writes_to el (trace w1) = writes_to el (trace w).
Proof.
  intros Hs. destruct (startup_inv _ _ _ _ _ Hs) as (here & l2 & Ha & _ & -> & _).
  apply startup_begun in Hs.
  destruct (begun_grows _ _ _ _ _ Ha Hs) as (_ & _ & evs & -> & Hev).
  rewrite writes_to_app, (writes_to_startup _ (log_file here) evs); [apply app_nil_r| |exact Hev].
  intros H. symmetry in H. revert H. apply log_file_not_error_log.
Qed.

Lemma spawn_writes (env : Env) (w w2 : World) (sp el : string)
    (r : result (string * string)) :
  spawn_and_wait sp env w = (r, w2) ->
  writes_to el (trace w2) = writes_to el (trace w).
Proof.
  intros H. destruct (spawn_and_wait_frame _ _ _ _ _ H) as (_ & _ & _ & _ & [->| ->]).
  - reflexivity.
  - rewrite writes_to_app. apply app_nil_r.
Qed.




(** ** The Termination Record *)




(** The spec's scenario: a script that writes "boom" to its error stream
    and exits with status 3. *)
Example boom_error_log :
  outcome env_boom w_ready = Raise (SystemExit 1) /\
  lines (content (files (final env_boom w_ready)) (error_log here_sync)) =
    ["2024-03-09 07:05:02: Git sync process terminated unexpectedly";
     "Return code: 3";
     "Error output: boom"].
Proof. split; vm_compute; reflexivity. Qed.





(** ** The startup log *)








(** ** Order of the writes *)

Lemma startup_events_launch (env : Env) (k : nat) (here : string) :
  writes_to (log_file here) (startup_events env k here) = launch_lines env k here.
Proof.
  unfold startup_events, launch_lines.
  rewrite !writes_to_cons, String.eqb_refl. reflexivity.
Qed.

(** No startup event is a write to the error log. *)
Lemma startup_event_no_error (here t : string) (evs : list event) (j : nat) :
  Forall (startup_event (log_file here)) evs ->
  evs !! j <> Some (EvWrite (error_log here) t).
Proof.
  intros F H. rewrite Forall_lookup in F. specialize (F _ _ H). cbn in F.
  symmetry in F. revert F. apply log_file_not_error_log.
Qed.

Lemma startup_events_ok (env : Env) (k : nat) (here : string) :
  Forall (startup_event (log_file here)) (startup_events env k here).
Proof. unfold startup_events. repeat constructor. Qed.

(** Nothing the script does shortens or rewrites a file. *)
Lemma final_extends (env : Env) (w : World) (p c : string) :
  files w !! p = Some c ->
  exists more, files (final env w) !! p = Some (c +:+ more).
Proof.
  intros Hc.
  destruct (main_cases env w) as [(e & B & _)|(sp & el & w1 & Hs & B & S)].
  - destruct (abspath_file env) as [e0|here] eqn:Ha.
    + destruct (begun_lost _ _ _ _ _ Ha B) as [_ ->].
      exists EmptyString. now rewrite append_nil_r.
    + eapply grows_extends; [eapply begun_grows; eassumption | exact Hc].
  - destruct (startup_inv _ _ _ _ _ Hs) as (here & l2 & Ha & _).
    destruct (grows_extends _ _ _ _ _ _ (begun_grows _ _ _ _ _ Ha B) Hc) as (m1 & H1).
    destruct (grows_extends _ _ _ _ _ _ (supervised_grows _ _ _ _ _ _ S) H1) as (m2 & H2).
    exists (m1 +:+ m2). now rewrite <- append_assoc.
Qed.

(** C7.  The two logs, like every other file, are only appended to: what
    a file held before the run is a prefix of what it holds after it.  And
    the Launch Record comes first: at each write to the error log, the
    startup log has received its two launch lines, and it receives nothing
    after. *)
Theorem launch_precedes_error_records (env : Env) (w : World) :
  (forall p c, files w !! p = Some c ->
               exists more, files (final env w) !! p = Some (c +:+ more)) /\
  exists evs,
    trace (final env w) = (trace w ++ evs)%list /\
    forall here, abspath_file env = inr here ->
    forall j t, evs !! j = Some (EvWrite (error_log here) t) ->
      writes_to (log_file here) (take j evs) = launch_lines env (ticks w) here /\
      writes_to (log_file here) (drop j evs) = [].
Proof.
  split; [intros p c; apply final_extends|].
  destruct (main_cases env w) as [(e & B & _)|(sp & el & w1 & Hs & B & S)].
  - destruct (abspath_file env) as [e0|here] eqn:Ha.
    + destruct (begun_lost _ _ _ _ _ Ha B) as [_ ->].
      exists []. split; [cbn; now rewrite app_nil_r|]. intros here' [=].
    + destruct (begun_grows _ _ _ _ _ Ha B) as (_ & _ & evs & Ht & Hev).
      exists evs. split; [exact Ht|].
      intros here' [= <-] j t Hj. exfalso. revert Hj.
      now apply startup_event_no_error.
  - destruct (startup_inv _ _ _ _ _ Hs) as (here & l2 & Ha & -> & -> & _ & _ & ->).
    destruct (supervised_grows _ _ _ _ _ _ S) as (_ & _ & rest & Ht & Hr).
    exists (startup_events env (ticks w) here ++ rest)%list.
    split; [now rewrite Ht, started_trace, <- (assoc_L (++))|].
    intros here' Ha' j t Hj. rewrite Ha in Ha'. injection Ha' as <-.
    assert (Hlen : length (startup_events env (ticks w) here) = 8) by reflexivity.
    assert (Hge : 8 <= j).
    { destruct (Nat.le_gt_cases 8 j) as [|Hlt]; [assumption|].
      rewrite lookup_app_l in Hj by lia.
      exfalso. revert Hj. apply startup_event_no_error, startup_events_ok. }
    rewrite take_app, drop_app, !writes_to_app, Hlen.
    rewrite take_ge, drop_ge by lia.
    rewrite startup_events_launch.
    split.
    + rewrite (writes_to_other _ (error_log here)).
      * apply app_nil_r.
      * apply log_file_not_error_log.
      * now apply Forall_take.
    + apply (writes_to_other _ (error_log here)).
      * apply log_file_not_error_log.
      * now apply Forall_drop.
Qed.

Lemma launch_precedes_error_records_witness :
  writes_to (log_file here_sync)
    (take 10 (trace (final env_boom w_ready))) = launch_lines env_boom 0 here_sync /\
  writes_to (log_file here_sync) (drop 10 (trace (final env_boom w_ready))) = [].
Proof.
  destruct (launch_precedes_error_records env_boom w_ready) as (_ & evs & Ht & H).
  change (trace w_ready) with (@nil event) in Ht. rewrite app_nil_l in Ht.
  rewrite Ht.
  apply (H here_sync eq_refl 10
           ("2024-03-09 07:05:02: Git sync process terminated unexpectedly" +:+ nl)).
  rewrite <- Ht. vm_compute. reflexivity.
Defined.

(** ** The format of the error log *)

Lemma termination_record_timestamped (ts : string) (rc : Z) (oerr : option string) :
  is_timestamp ts = true -> timestamped (termination_record ts rc oerr) = true.
Proof.
  intros H. unfold termination_record.
  apply (timestamped_line ts
           ("Git sync process terminated unexpectedly" +:+ nl +:+
            "Return code: " +:+ pretty rc +:+ nl +:+
            match oerr with
            | Some text => "Error output: " +:+ text +:+ nl
            | None => EmptyString
            end) H).
Qed.

Lemma exception_record_timestamped (ts d : string) :
  is_timestamp ts = true -> timestamped (exception_record ts d) = true.
Proof.
  intros H. unfold exception_record.
  apply (timestamped_line ts ("Exception running git sync script: " +:+ d +:+ nl) H).
Qed.

(** Lines 46-50: the error log cannot be opened and nothing changes, or
    it can. *)
Lemma terminated_refused_or_opened (env : Env) (el err : string) (rc : Z)
    (w w' : World) (r : result unit) :
  terminated env el err rc w r w' ->
  (w' = refused w /\ exists d, r = Raise (PyException d)) \/
  open_error env (opens w) el = None.
Proof. intros T. inversion T; subst; eauto. Qed.

Lemma concat_text_one (r : string) : concat_text [r] = r.
Proof. cbn. apply append_nil_r. Qed.

(** What the handler appends is a sequence of well-formed records (one or
    none). *)
Lemma handled_records (env : Env) (el d : string) (w w' : World) (r : result unit) :
  handled env el d w r w' ->
  is_timestamp (timestamp_at env (ticks w)) = true ->
  exists recs,
    content (files w') el = content (files w) el +:+ concat_text recs /\
    Forall (fun x => error_record x /\ timestamped x = true) recs.
Proof.
  intros H Hts. destruct (handled_tail _ _ _ _ _ _ H) as (tail & Hc & [->|(d' & ->)]).
  - exists []. split; [exact Hc | constructor].
  - eexists [_]. rewrite concat_text_one. split; [exact Hc|].
    constructor; [split|constructor].
    + right. eexists _, _. split; [exact Hts | reflexivity].
    + now apply exception_record_timestamped.
Qed.

(** What lines 37-57 append to the error log is a sequence of well-formed
    records. *)
Lemma supervised_records (env : Env) (sp el : string) (w1 w' : World) (r : result unit) :
  supervised env sp el w1 r w' ->
  is_timestamp (timestamp_at env (ticks w1)) = true ->
  is_timestamp (timestamp_at env (S (ticks w1))) = true ->
  exists recs,
    content (files w') el = content (files w1) el +:+ concat_text recs /\
    Forall (fun x => error_record x /\ timestamped x = true) recs.
Proof.
  intros S H2 H3.
  destruct S as [e w2 E N|w2 E|d w2 r w' E H|out err rc w2 w3 E RC T
                |out err rc w2 d w3 r w' E RC T H];
    destruct (spawn_and_wait_frame _ _ _ _ _ E) as (Hf & Ht & _).
  - exists []. rewrite Hf. cbn. now rewrite append_nil_r.
  - exists []. rewrite Hf. cbn. now rewrite append_nil_r.
  - rewrite <- Hf. apply (handled_records _ _ _ _ _ _ H). now rewrite Ht.
  - destruct (terminated_refused_or_opened _ _ _ _ _ _ _ T) as [(_ & d & [=])|Ho].
    destruct (terminated_opened _ _ _ _ _ _ _ T Ho) as (oerr & Hc & _).
    eexists [_]. rewrite concat_text_one, <- Hf. split; [exact Hc|].
    rewrite Ht. constructor; [split|constructor].
    + left. eexists _, _, _. split; [exact H2 | reflexivity].
    + now apply termination_record_timestamped.
  - destruct (terminated_refused_or_opened _ _ _ _ _ _ _ T) as [(-> & _)|Ho].
    + rewrite <- Hf. apply (handled_records _ _ _ _ _ _ H).
      cbn [refused ticks]. now rewrite Ht.
    + destruct (terminated_opened _ _ _ _ _ _ _ T Ho) as (oerr & Hc & _ & Htick & _).
      destruct (handled_records _ _ _ _ _ _ H) as (recs & Hh & Hrecs).
      { now rewrite Htick, Ht. }
      exists (termination_record (timestamp_at env (ticks w2)) rc oerr :: recs).
      split.
      * rewrite Hh, Hc, Hf, append_assoc. reflexivity.
      * constructor; [|exact Hrecs]. rewrite Ht. split.
        -- left. eexists _, _, _. split; [exact H2 | reflexivity].
        -- now apply termination_record_timestamped.
Qed.

(** C8, as the code has it.  With a clock that shows a four-digit year,
    what a run appends to the error log is a sequence of records, each a
    Termination Record or an Exception Record, and each record starts with
    a line of the form [YYYY-MM-DD HH:MM:SS: <message>].  (The further
    lines of a Termination Record, [Return code: ...] and
    [Error output: ...], carry no timestamp.) *)
Theorem error_log_records_timestamped (env : Env) (w : World) (here : string) :
  abspath_file env = inr here ->
  tm_ok (localtime env (2 + ticks w)) = true ->
  tm_ok (localtime env (3 + ticks w)) = true ->
  exists recs,
    content (files (final env w)) (error_log here) =
      content (files w) (error_log here) +:+ concat_text recs /\
    Forall (fun r => error_record r /\ timestamped r = true) recs.
Proof.
  intros Ha H2 H3.
  apply timestamp_format in H2, H3.
  destruct (main_cases env w) as [(e & B & _)|(sp & el & w1 & Hs & B & S)].
  - exists []. split; [|constructor].
    destruct (begun_grows _ _ _ _ _ Ha B) as (F & _).
    cbn. rewrite append_nil_r. apply content_eq, F.
    intros H. symmetry in H. revert H. apply log_file_not_error_log.
  - pose proof (startup_error_log _ _ _ _ _ Hs) as Hel.
    destruct (startup_ticks _ _ _ _ _ Hs) as (Ht & _).
    destruct (startup_inv _ _ _ _ _ Hs) as (h & l2 & Ha' & _ & -> & _).
    rewrite Ha in Ha'. injection Ha' as <-.
    rewrite <- (content_eq _ _ _ Hel).
    apply (supervised_records _ _ _ _ _ _ S); now rewrite Ht.
Qed.

Lemma error_log_records_timestamped_witness :
  exists recs,
    content (files (final env_boom w_ready)) (error_log here_sync) =
      content (files w_ready) (error_log here_sync) +:+ concat_text recs /\
    Forall (fun r => error_record r /\ timestamped r = true) recs.
Proof.
  apply (error_log_records_timestamped env_boom w_ready here_sync).
  - reflexivity.
  - vm_compute. reflexivity.
  - vm_compute. reflexivity.
Defined.

(** C8 as stated fails: the second line of the spec's own scenario, the
    return code, carries no timestamp. *)
Lemma return_code_line_not_timestamped :
  files w_ready !! error_log here_sync = None /\
  ~ Forall (fun l => timestamped l = true)
      (lines (content (files (final env_boom w_ready)) (error_log here_sync))).
Proof.
  split; [vm_compute; reflexivity|].
  rewrite (proj2 boom_error_log). intros H.
  inversion H as [|? ? _ H']. inversion H' as [|? ? Hrc _].
  vm_compute in Hrc. discriminate Hrc.
Qed.

(** ** The child's standard output *)

Lemma startup_stdout (env : Env) (w : World) (out' : string) :
  startup (with_child_stdout out' env) w = startup env w.
Proof. reflexivity. Qed.

Lemma log_termination_stdout (env : Env) (w : World) (el err out' : string) :
  log_termination el err (with_child_stdout out' env) w = log_termination el err env w.
Proof.
  run_block.
  cbn [with_child_stdout open_error localtime locale encode_error decode_error].
  destruct (is_empty err); reflexivity.
Qed.

(** What the child writes to its standard output is what step 5 returns
    first, and changes nothing else of step 5. *)
Lemma spawn_and_wait_stdout (env : Env) (w : World) (sp out' : string) :
  spawn_and_wait sp (with_child_stdout out' env) w =
  match spawn_and_wait sp env w with
  | (Ok (_, err), w2) => (Ok (out', err), w2)
  | other => other
  end.
Proof.
  rewrite !spawn_and_wait_unfold.
  cbn [with_child_stdout spawn_error wait_interrupt].
  destruct (spawn_error env); [reflexivity|].
  destruct (files w !! "/bin/bash"); [|reflexivity].
  destruct (wait_interrupt env); [reflexivity|].
  unfold run_child. cbn [with_child_stdout script_outcome bash_without_script].
  destruct (files w !! sp).
  - destruct (script_outcome env); reflexivity.
  - destruct (bash_without_script env sp); reflexivity.
Qed.

(** C9.  The child's standard output is captured and dropped: whatever
    the child writes there, the launcher ends the same way, every file
    (the two logs among them) holds the same text, and the launcher does
    and prints the same things in the same order. *)
Theorem child_stdout_discarded (env : Env) (w : World) (out' : string) :
  outcome (with_child_stdout out' env) w = outcome env w /\
  files (final (with_child_stdout out' env) w) = files (final env w) /\
  trace (final (with_child_stdout out' env) w) = trace (final env w).
Proof.
  assert (H : main (with_child_stdout out' env) w = main env w).
  { unfold main, bind. rewrite startup_stdout.
    destruct (startup env w) as [[[sp el]|e|] w1]; try reflexivity.
    cbn [fst snd]. unfold supervise, try_except_Exception, run_script.
    cbv [bind]. rewrite spawn_and_wait_stdout.
    destruct (spawn_and_wait sp env w1) as [[[out err]|e|] w2]; try reflexivity.
    cbn [snd]. rewrite log_termination_stdout.
    destruct (log_termination el err env w2) as [[[]|[n|d|d]|] w3]; reflexivity. }
  unfold outcome, final. now rewrite H.
Qed.

(** * Further properties of the script *)

(** ** The launcher's directory *)

Lemma upto_last_slash_none (n : string) :
  has_slash n = false -> upto_last_slash n = EmptyString.
Proof. intros H. destruct n as [|c n]; [reflexivity|]. cbn [upto_last_slash]. now rewrite H. Qed.

Lemma has_slash_app_slash (a n : string) : has_slash (a +:+ "/" +:+ n) = true.
Proof.
  induction a as [|c a IH]; [reflexivity|].
  rewrite (append_cons c a). cbn [has_slash]. rewrite IH. apply orb_true_r.
Qed.

Lemma upto_last_slash_app (a n : string) :
  has_slash n = false -> upto_last_slash (a +:+ "/" +:+ n) = a +:+ "/".
Proof.
  intros Hn. induction a as [|c a IH].
  - rewrite !append_nil_l.
    change ("/" +:+ n) with (String "/"%char n).
    cbn [upto_last_slash has_slash is_slash Ascii.eqb Bool.eqb orb].
    now rewrite (upto_last_slash_none _ Hn).
  - rewrite (append_cons c a).
    assert (Hs : has_slash (String c (a +:+ "/" +:+ n)) = true)
      by (cbn [has_slash]; rewrite has_slash_app_slash; apply orb_true_r).
    cbn [upto_last_slash]. rewrite Hs, IH. reflexivity.
Qed.

Lemma endswith_slash_split (d : string) :
  endswith_slash d = true -> exists d', d = d' +:+ "/".
Proof.
  induction d as [|c d IH]; [discriminate|].
  destruct d as [|c' d].
  - cbn [endswith_slash]. unfold is_slash. intros H.
    apply Ascii.eqb_eq in H. subst c. now exists EmptyString.
  - intros H. change (endswith_slash (String c' d) = true) in H.
    destruct (IH H) as (d' & ->). now exists (String c d').
Qed.

Lemma all_slashes_endswith (d : string) :
  all_slashes d = true -> is_empty d = false -> endswith_slash d = true.
Proof.
  induction d as [|c d IH]; [discriminate|].
  cbn [all_slashes]. intros H _. apply andb_prop in H as [Hc Hd].
  destruct d as [|c' d]; [exact Hc|].
  change (endswith_slash (String c' d) = true). now apply IH.
Qed.

Lemma all_slashes_app_slash (d : string) :
  all_slashes (d +:+ "/") = all_slashes d.
Proof.
  induction d as [|c d IH]; [reflexivity|].
  rewrite (append_cons c d). cbn [all_slashes]. now rewrite IH.
Qed.

Lemma rstrip_slash_empty (s : string) : is_empty (rstrip_slash s) = all_slashes s.
Proof.
  induction s as [|c s IH]; [reflexivity|].
  cbn [rstrip_slash all_slashes]. rewrite <- IH.
  destruct (is_slash c), (is_empty (rstrip_slash s)); reflexivity.
Qed.

Lemma rstrip_slash_no_slash (s : string) : endswith_slash (rstrip_slash s) = false.
Proof.
  induction s as [|c s IH]; [reflexivity|].
  cbn [rstrip_slash].
  destruct (is_slash c) eqn:Hc, (rstrip_slash s) as [|c' r] eqn:Hr;
    cbn [andb is_empty endswith_slash]; try reflexivity; try exact Hc; exact IH.
Qed.

Lemma rstrip_slash_app_slash (d : string) :
  rstrip_slash (d +:+ "/") = rstrip_slash d.
Proof.
  induction d as [|c d IH]; [reflexivity|].
  rewrite (append_cons c d). cbn [rstrip_slash]. now rewrite IH.
Qed.

Lemma rstrip_slash_cons (c : ascii) (r : string) :
  rstrip_slash (String c r) =
  if is_slash c && is_empty (rstrip_slash r) then EmptyString
  else String c (rstrip_slash r).
Proof. reflexivity. Qed.

Lemma rstrip_slash_id (d : string) :
  endswith_slash d = false -> rstrip_slash d = d.
Proof.
  induction d as [|c d IH]; [reflexivity|].
  destruct d as [|c' d].
  - cbn [endswith_slash rstrip_slash is_empty]. intros ->. reflexivity.
  - intros H. change (endswith_slash (String c' d) = false) in H.
    rewrite rstrip_slash_cons, (IH H). cbn [is_empty].
    now rewrite andb_false_r.
Qed.

(** What [dirname] returns is empty, or made of slashes only, or free of
    a trailing slash. *)
Lemma dirname_shape (p : string) :
  is_empty (dirname p) = true \/
  (is_empty (dirname p) = false /\ all_slashes (dirname p) = true) \/
  (is_empty (dirname p) = false /\ endswith_slash (dirname p) = false).
Proof.
  unfold dirname.
  destruct (is_empty (upto_last_slash p)) eqn:He; [now left|].
  destruct (all_slashes (upto_last_slash p)) eqn:Ha; cbn [negb andb].
  - right. left. now rewrite He, Ha.
  - right. right. rewrite rstrip_slash_empty, Ha. split; [reflexivity|].
    apply rstrip_slash_no_slash.
Qed.

Lemma no_slash_not_absolute (n : string) :
  has_slash n = false -> startswith_slash n = false.
Proof.
  destruct n as [|c n]; [reflexivity|].
  cbn [has_slash startswith_slash]. intros H. now apply orb_false_elim in H as [-> _].
Qed.

(** A name joined to the directory of a path lies in that directory. *)
Lemma dirname_join_dirname (p name : string) :
  has_slash name = false ->
  dirname (join (dirname p) name) = dirname p.
Proof.
  intros Hn. pose proof (no_slash_not_absolute _ Hn) as Hs.
  destruct (dirname_shape p) as [He|[[He Ha]|[He Hl]]].
  - destruct (dirname p) as [|c d]; [|discriminate].
    unfold join. rewrite Hs. cbn [is_empty orb]. rewrite append_nil_l.
    unfold dirname. now rewrite (upto_last_slash_none _ Hn).
  - pose proof (all_slashes_endswith _ Ha He) as Hend.
    unfold join at 1. rewrite Hs, Hend, orb_true_r.
    destruct (endswith_slash_split _ Hend) as (d' & Hd). rewrite Hd at 1.
    rewrite append_assoc.
    unfold dirname at 1. rewrite (upto_last_slash_app _ _ Hn), <- Hd.
    now rewrite He, Ha.
  - unfold join at 1. rewrite Hs, He, Hl. cbn [orb].
    unfold dirname at 1. rewrite (upto_last_slash_app _ _ Hn).
    rewrite all_slashes_app_slash, rstrip_slash_app_slash.
    assert (Ha : all_slashes (dirname p) = false).
    { destruct (all_slashes (dirname p)) eqn:Ha; [|reflexivity].
      rewrite (all_slashes_endswith _ Ha He) in Hl. discriminate. }
    rewrite Ha, andb_true_r.
    destruct (dirname p +:+ "/") eqn:E.
    + destruct (dirname p); discriminate.
    + cbn [is_empty negb]. now apply rstrip_slash_id.
Qed.

(** X1.  The sync script and the two logs are siblings of the launcher:
    the directory of each of the three paths of lines 17-25 is the
    launcher's own directory, wherever the launcher is installed. *)
Theorem paths_beside_launcher (here : string) :
  dirname (script_path here) = dirname here /\
  dirname (log_file here) = dirname here /\
  dirname (error_log here) = dirname here.
Proof.
  unfold script_path, log_file, error_log.
  repeat split; apply dirname_join_dirname; reflexivity.
Qed.

(** ** The events of the startup *)

(** However the startup ends, what it has done is the beginning of
    [startup_events], at least the relabelling, and all of it when the
    startup returns. *)
Lemma begun_events (env : Env) (w w1 : World) (r : result (string * string))
    (here : string) :
  abspath_file env = inr here -> begun env w r w1 ->
  exists n,
    2 <= n <= 8 /\
    trace w1 = (trace w ++ take n (startup_events env (ticks w) here))%list /\
    (forall x, r = Ok x -> n = 8).
Proof.
  intros Ha B.
  inversion B as [e Ha'|h d Ha'|h Ha'|h line2 k t e Ha' Ho He Hk Hp|h line2 Ha']; subst;
    rewrite Ha in Ha'; try discriminate Ha'; injection Ha' as <-.
  - exists 2. split; [lia|]. split; [|discriminate].
    cbn [refused relabelled unbuffered record_event with_environ trace].
    now rewrite <- !(assoc_L (++)).
  - exists 4. split; [lia|]. split; [|discriminate].
    cbn [tick half_launched wrote opened refused relabelled unbuffered
         record_event with_environ trace ticks].
    now rewrite <- !(assoc_L (++)).
  - exists (5 + k). assert (Hlt : k < 3).
    { apply lookup_lt_Some in Hk. exact Hk. }
    split; [lia|]. split; [|destruct e; discriminate].
    rewrite printed_trace.
    cbn [launched tick half_launched wrote opened refused relabelled unbuffered
         record_event with_environ trace ticks].
    rewrite <- !(assoc_L (++)). f_equal.
    destruct k as [|[|[|k]]]; [reflexivity..|lia].
  - exists 8. split; [lia|]. split; [|reflexivity].
    rewrite started_trace. f_equal.
Qed.

Lemma systems_of_app (a b : list event) :
  systems_of (a ++ b) = (systems_of a ++ systems_of b)%list.
Proof. apply omap_app. Qed.

Lemma spawns_of_app (a b : list event) :
  spawns_of (a ++ b) = (spawns_of a ++ spawns_of b)%list.
Proof. apply omap_app. Qed.


(** What the beginning of the startup amounts to: one command, no child,
    and the beginning of the four lines of the standard output. *)
Lemma startup_events_prefix (env : Env) (k n : nat) (here : string) :
  2 <= n <= 8 ->
  systems_of (take n (startup_events env k here)) = [relabel_command (getpid env)] /\
  spawns_of (take n (startup_events env k here)) = [] /\
  exists m, 1 <= m /\ (n = 8 -> m = 4) /\
    stdout_of (take n (startup_events env k here)) =
    take m (system_output env (relabel_command (getpid env)) :: announcement here).
Proof.
  intros Hn.
  destruct n as [|[|[|[|[|[|[|[|[|n]]]]]]]]]; try lia;
    (split; [reflexivity|]; split; [reflexivity|]).
  - exists 1. repeat split; lia.
  - exists 1. repeat split; lia.
  - exists 1. repeat split; lia.
  - exists 1. repeat split; lia.
  - exists 2. repeat split; lia.
  - exists 3. repeat split; lia.
  - exists 4. repeat split; lia.
Qed.

(** Lines 37-57 run no command and send nothing to the standard
    output. *)
Lemma error_events_quiet (el : string) (evs : list event) :
  Forall (error_event el) evs -> systems_of evs = [] /\ stdout_of evs = [].
Proof.
  induction 1 as [|ev evs Hev _ [IH1 IH2]]; [split; reflexivity|].
  destruct ev as [c|c|q|q t|t|a]; try contradiction;
    unfold systems_of, stdout_of in *; cbn [omap list_omap];
    rewrite ?IH1, ?IH2; split; reflexivity.
Qed.

(** ** Files *)

Lemma touched_startup (here : string) (ev : event) (p : string) :
  startup_event (log_file here) ev -> touched ev = Some p ->
  p = log_file here \/ p = error_log here.
Proof. destruct ev; cbn; intros H [= <-]; auto. Qed.

Lemma touched_error (here : string) (ev : event) (p : string) :
  error_event (error_log here) ev -> touched ev = Some p ->
  p = log_file here \/ p = error_log here.
Proof. destruct ev; cbn; intros H [= <-]; auto. Qed.

(** X2.  The launcher opens and writes its two logs and no other file:
    every [open] and every [write] of a run is on [LOG_FILE] or on
    [ERROR_LOG], whatever the outcome. *)
Theorem only_logs_touched (env : Env) (w : World) (here : string) :
  abspath_file env = inr here ->
  exists evs,
    trace (final env w) = (trace w ++ evs)%list /\
    Forall (fun ev => forall p, touched ev = Some p ->
                                p = log_file here \/ p = error_log here) evs.
Proof.
  intros Ha.
  destruct (main_cases env w) as [(e & B & _)|(sp & el & w1 & Hs & B & S)].
  - destruct (begun_grows _ _ _ _ _ Ha B) as (_ & _ & evs & Ht & Hev).
    exists evs. split; [exact Ht|].
    eapply Forall_impl; [exact Hev|]. intros ev Hx p. now apply touched_startup.
  - destruct (begun_grows _ _ _ _ _ Ha B) as (_ & _ & evs & Ht & Hev).
    destruct (startup_inv _ _ _ _ _ Hs) as (h & l2 & Ha' & _ & -> & _).
    rewrite Ha in Ha'. injection Ha' as <-.
    destruct (supervised_grows _ _ _ _ _ _ S) as (_ & _ & rest & Ht' & Hr).
    exists (evs ++ rest)%list. split; [now rewrite Ht', Ht, <- (assoc_L (++))|].
    apply Forall_app. split.
    + eapply Forall_impl; [exact Hev|]. intros ev Hx p. now apply touched_startup.
    + eapply Forall_impl; [exact Hr|]. intros ev Hx p. now apply touched_error.
Qed.

Lemma only_logs_touched_witness :
  exists evs,
    trace (final env_boom w_ready) = (trace w_ready ++ evs)%list /\
    Forall (fun ev => forall p, touched ev = Some p ->
                                p = log_file here_sync \/ p = error_log here_sync) evs.
Proof. apply (only_logs_touched env_boom w_ready here_sync). reflexivity. Defined.

Lemma launched_exists (env : Env) (here line2 : string) (w : World) :
  is_Some (files (launched env here line2 w) !! log_file here).
Proof. cbn [launched wrote files]. rewrite lookup_insert_eq. eauto. Qed.

Lemma half_launched_exists (env : Env) (here : string) (w : World) :
  is_Some (files (half_launched env here w) !! log_file here).
Proof. cbn [half_launched wrote files]. rewrite lookup_insert_eq. eauto. Qed.

(** A run that does not end never got past the wait. *)
Lemma diverges_in_wait (env : Env) (w : World) :
  outcome env w = Diverge ->
  exists sp el w1 w2,
    startup env w = (Ok (sp, el), w1) /\
    spawn_and_wait sp env w1 = (Diverge, w2) /\ final env w = w2.
Proof.
  intros Hd.
  destruct (main_cases env w) as [(e & _ & Ho)|(sp & el & w1 & Hs & _ & S)];
    [congruence|].
  exists sp, el, w1. rewrite Hd in S.
  inversion S as [|w2 E|d w2 r w' E H|
                 |out err rc w2 d w3 r w' E RC T H]; subst.
  - exists (final env w). auto.
  - destruct (handled_result _ _ _ _ _ _ H) as [[=]|[d' [=]]].
  - destruct (handled_result _ _ _ _ _ _ H) as [[=]|[d' [=]]].
Qed.

(** X3.  When the startup log can be opened it exists after the run, even
    if it did not before.  And while the launcher waits for the child
    (the run does not end), the error log is as it was: nothing is written
    to it, and it is not created. *)
Theorem logs_while_waiting (env : Env) (w : World) (here : string) :
  abspath_file env = inr here ->
  (open_error env (opens w) (log_file here) = None ->
   is_Some (files (final env w) !! log_file here)) /\
  (outcome env w = Diverge ->
   files (final env w) !! error_log here = files w !! error_log here /\
   writes_to (error_log here) (trace (final env w)) =
     writes_to (error_log here) (trace w)).
Proof.
  intros Ha. split.
  - intros Ho.
    destruct (main_cases env w) as [(e & B & _)|(sp & el & w1 & Hs & _ & S)].
    + inversion B as [e0 Ha'|h d Ha' Ho'|h Ha' Ho' He'|h line2 k t e0 Ha' Ho' He' Hk Hp|];
        rewrite Ha in Ha'; try discriminate Ha'; injection Ha' as <-.
      * congruence.
      * cbn [tick files]. apply half_launched_exists.
      * rewrite printed_files. apply launched_exists.
    + destruct (startup_inv _ _ _ _ _ Hs) as (h & line2 & Ha' & -> & -> & _ & _ & ->).
      rewrite Ha in Ha'. injection Ha' as <-.
      destruct (supervised_grows _ _ _ _ _ _ S) as (F & _).
      rewrite (F (log_file here) (log_file_not_error_log _)).
      unfold started. rewrite printed_files. apply launched_exists.
  - intros Hd.
    destruct (diverges_in_wait _ _ Hd) as (sp & el & w1 & w2 & Hs & H & ->).
    destruct (startup_inv _ _ _ _ _ Hs) as (h & line2 & Ha' & _ & -> & _).
    rewrite Ha in Ha'. injection Ha' as <-.
    destruct (error_log_before _ _ _ _ _ _ _ Hs H) as (_ & Hf & _).
    split; [exact Hf|].
    rewrite (spawn_writes _ _ _ _ _ _ H). apply (startup_writes _ _ _ _ _ Hs).
Qed.

Lemma logs_while_waiting_witness :
  is_Some (files (final env_forever w_ready) !! log_file here_sync) /\
  files (final env_forever w_ready) !! error_log here_sync =
    files w_ready !! error_log here_sync /\
  writes_to (error_log here_sync) (trace (final env_forever w_ready)) =
    writes_to (error_log here_sync) (trace w_ready).
Proof.
  destruct (logs_while_waiting env_forever w_ready here_sync eq_refl) as (A & B).
  split; [apply A; reflexivity|]. apply B. vm_compute. reflexivity.
Defined.

(** ** The wait *)




(** X5.  The handler is [except Exception]: an exception of step 5 that
    is no instance of [Exception] ([KeyboardInterrupt] while the launcher
    waits, say) leaves the script uncaught.  Nothing is written to the
    error log, and the script does not choose the exit status. *)
Theorem base_exception_escapes (env : Env) (w w1 w2 : World) (sp el d : string) :
  startup env w = (Ok (sp, el), w1) ->
  spawn_and_wait sp env w1 = (Raise (PyBaseException d), w2) ->
  outcome env w = Raise (PyBaseException d) /\
  exit_status env (outcome env w) = None /\
  files (final env w) !! el = files w !! el.
Proof.
  intros Hs H.
  destruct (run_escaped _ _ _ _ _ _ _ Hs H) as (-> & ->).
  destruct (error_log_before _ _ _ _ _ _ _ Hs H) as (_ & Hf & _).
  repeat split. exact Hf.
Qed.

Lemma base_exception_escapes_witness :
  outcome env_interrupted w_ready = Raise (PyBaseException "KeyboardInterrupt") /\
  exit_status env_interrupted (outcome env_interrupted w_ready) = None /\
  files (final env_interrupted w_ready) !! error_log here_sync =
    files w_ready !! error_log here_sync.
Proof.
  eapply (base_exception_escapes env_interrupted w_ready
            (snd (startup env_interrupted w_ready))).
  - vm_compute. reflexivity.
  - vm_compute. reflexivity.
Defined.

(** ** Commands, spawns and the standard output *)

Lemma handled_spawns (env : Env) (el d : string) (w w' : World) (r : result unit) :
  handled env el d w r w' -> spawns_of (trace w') = spawns_of (trace w).
Proof.
  intros H. inversion H; subst;
    cbn [wrote tick opened refused trace]; rewrite ?spawns_of_app;
    cbn; now rewrite ?app_nil_r.
Qed.

Lemma terminated_spawns (env : Env) (el err : string) (rc : Z) (w w' : World)
    (r : result unit) :
  terminated env el err rc w r w' -> spawns_of (trace w') = spawns_of (trace w).
Proof.
  intros H. inversion H; subst; unfold termination_begun;
    cbn [wrote tick opened refused trace]; rewrite ?spawns_of_app;
    cbn; now rewrite ?app_nil_r.
Qed.

(** The one event of step 5 is the spawn, and it is there exactly when
    bash is installed and nothing keeps it from starting. *)
Lemma spawn_and_wait_trace (env : Env) (w w2 : World) (sp : string)
    (r : result (string * string)) :
  spawn_and_wait sp env w = (r, w2) ->
  (is_Some (files w !! "/bin/bash") /\ spawn_error env = None /\
   trace w2 = (trace w ++ [EvSpawn ["/bin/bash"; sp]])%list) \/
  ((files w !! "/bin/bash" = None \/ is_Some (spawn_error env)) /\ trace w2 = trace w).
Proof.
  rewrite spawn_and_wait_unfold.
  destruct (spawn_error env) as [e|]; [intros [= <- <-]; right; eauto|].
  destruct (files w !! "/bin/bash") as [b|]; [|intros [= <- <-]; right; auto].
  destruct (wait_interrupt env) as [e|]; [intros [= <- <-]; left; eauto|].
  destruct (run_child _ _ _); intros [= <- <-]; left; eauto.
Qed.

(** After step 5, lines 37-57 start no child. *)
Lemma supervised_spawns (env : Env) (sp el : string) (w1 w' : World) (r : result unit) :
  supervised env sp el w1 r w' ->
  exists r0 w2,
    spawn_and_wait sp env w1 = (r0, w2) /\
    spawns_of (trace w') = spawns_of (trace w2).
Proof.
  intros S.
  destruct S as [e w2 E N|w2 E|d w2 r w' E H|out err rc w2 w3 E RC T
                |out err rc w2 d w3 r w' E RC T H];
    do 2 eexists; (split; [exact E|]);
    repeat match goal with
           | X : handled _ _ _ _ _ _ |- _ => apply handled_spawns in X
           | X : terminated _ _ _ _ _ _ _ |- _ => apply terminated_spawns in X
           end; congruence.
Qed.

(** The events of a whole run: the beginning of the startup, then, when
    the startup has returned, those of lines 37-57. *)
Lemma final_events (env : Env) (w : World) (here : string) :
  abspath_file env = inr here ->
  exists n rest,
    2 <= n <= 8 /\
    trace (final env w) =
      (trace w ++ take n (startup_events env (ticks w) here) ++ rest)%list /\
    Forall (error_event (error_log here)) rest /\
    ((exists sp el w1, startup env w = (Ok (sp, el), w1)) -> n = 8) /\
    ((~ (exists sp el w1, startup env w = (Ok (sp, el), w1)) /\ rest = []) \/
     exists w1 w2 r0,
       startup env w = (Ok (script_path here, error_log here), w1) /\
       spawn_and_wait (script_path here) env w1 = (r0, w2) /\
       spawns_of (trace (final env w)) = spawns_of (trace w2)).
Proof.
  intros Ha.
  destruct (startup env w) as [[[sp el]|e|] w1] eqn:Hs;
    pose proof (startup_begun _ _ _ _ Hs) as B.
  - pose proof (main_supervised _ _ _ _ _ Hs) as S.
    destruct (begun_events _ _ _ _ _ Ha B) as (n & Hn & Ht & Hok).
    specialize (Hok _ eq_refl). subst n.
    destruct (startup_inv _ _ _ _ _ Hs) as (h & l2 & Ha' & -> & -> & _).
    rewrite Ha in Ha'. injection Ha' as <-.
    destruct (supervised_grows _ _ _ _ _ _ S) as (_ & _ & rest & Ht' & Hr).
    exists 8, rest. split; [lia|].
    split; [now rewrite Ht', Ht, <- (assoc_L (++))|].
    split; [exact Hr|]. split; [reflexivity|].
    right. destruct (supervised_spawns _ _ _ _ _ _ S) as (r0 & w2 & E & Hsp).
    exists w1, w2, r0. auto.
  - destruct (run_not_started _ _ _ _ Hs) as (_ & ->).
    destruct (begun_events _ _ _ _ _ Ha B) as (n & Hn & Ht & _).
    exists n, []. rewrite app_nil_r. split; [exact Hn|]. split; [exact Ht|].
    split; [constructor|].
    split; [intros (sp & el & w1' & [=])|].
    left. split; [intros (sp & el & w1' & [=]) | reflexivity].
  - inversion B.
Qed.

Lemma startup_spawns (env : Env) (w w1 : World) (sp el : string) :
  startup env w = (Ok (sp, el), w1) -> spawns_of (trace w1) = spawns_of (trace w).
Proof.
  intros Hs. destruct (startup_inv _ _ _ _ _ Hs) as (here & l2 & _ & _ & _ & _ & _ & ->).
  rewrite started_trace, spawns_of_app. apply app_nil_r.
Qed.



(** X7.  A run that resolved its path hands exactly one command to
    [os.system], the relabelling of its own pid, and starts at most one
    child: [/bin/bash] on the sync script, when the startup has completed,
    bash is installed and the system lets it start.  No branch starts the
    child again. *)
Theorem one_relabel_one_spawn (env : Env) (w : World) (here : string) :
  abspath_file env = inr here ->
  exists evs,
    trace (final env w) = (trace w ++ evs)%list /\
    systems_of evs = [relabel_command (getpid env)] /\
    (spawns_of evs = [] \/ spawns_of evs = [["/bin/bash"; script_path here]]) /\
    ((exists sp el w1, startup env w = (Ok (sp, el), w1)) ->
     is_Some (files w !! "/bin/bash") -> spawn_error env = None ->
     spawns_of evs = [["/bin/bash"; script_path here]]).
Proof.
  intros Ha.
  destruct (final_events env w here Ha) as (n & rest & Hn & Ht & Hr & Hok & Hrest).
  destruct (startup_events_prefix env (ticks w) n here Hn) as (Hsys & Hsp & _).
  destruct (error_events_quiet _ _ Hr) as (Hq & _).
  exists (take n (startup_events env (ticks w) here) ++ rest)%list.
  split; [exact Ht|]. rewrite systems_of_app, spawns_of_app, Hsys, Hsp, Hq.
  split; [reflexivity|]. cbn [app].
  destruct Hrest as [(Hno & ->)|(w1 & w2 & r0 & Hs & E & Hfin)].
  { split; [now left|]. intros Hex. contradiction. }
  assert (Hall : spawns_of (trace (final env w)) =
                 (spawns_of (trace w) ++ spawns_of rest)%list).
  { rewrite Ht, !spawns_of_app, Hsp. reflexivity. }
  rewrite Hfin in Hall.
  apply startup_spawns in Hs as Hs1.
  destruct (spawn_and_wait_trace _ _ _ _ _ E) as [(Hb & He & T)|(Hno & T)];
    rewrite T in Hall; rewrite ?spawns_of_app, Hs1 in Hall.
  - apply app_inv_head in Hall. rewrite <- Hall.
    split; [now right | reflexivity].
  - rewrite <- (app_nil_r (spawns_of (trace w))) in Hall at 1.
    apply app_inv_head in Hall. rewrite <- Hall.
    split; [now left|]. intros _ [b Hb] He.
    rewrite (startup_bash _ _ _ _ _ Hs) in Hno.
    destruct Hno as [Hnone|[e Hsome]]; congruence.
Qed.

Lemma one_relabel_one_spawn_witness :
  exists evs,
    trace (final env_boom w_ready) = (trace w_ready ++ evs)%list /\
    systems_of evs = [relabel_command (getpid env_boom)] /\
    (spawns_of evs = [] \/ spawns_of evs = [["/bin/bash"; script_path here_sync]]) /\
    ((exists sp el w1, startup env_boom w_ready = (Ok (sp, el), w1)) ->
     is_Some (files w_ready !! "/bin/bash") -> spawn_error env_boom = None ->
     spawns_of evs = [["/bin/bash"; script_path here_sync]]).
Proof. apply (one_relabel_one_spawn env_boom w_ready here_sync). reflexivity. Defined.



(** ** Reading a Termination Record back *)

Lemma length_append (a b : string) :
  String.length (a +:+ b) = String.length a + String.length b.
Proof.
  induction a as [|c a IH]; [reflexivity|].
  rewrite append_cons. cbn [String.length]. now rewrite IH.
Qed.

Lemma append_inj_r (a b m : string) : a +:+ m = b +:+ m -> a = b.
Proof.
  revert b. induction a as [|c a IH]; intros [|c' b] H.
  - reflexivity.
  - apply (f_equal String.length) in H.
    rewrite append_nil_l, length_append in H. cbn [String.length] in H. lia.
  - apply (f_equal String.length) in H.
    rewrite append_nil_l, length_append in H. cbn [String.length] in H. lia.
  - rewrite !append_cons in H. injection H as -> H. f_equal. now apply IH.
Qed.

(** Two texts cut at their first line break agree piece by piece. *)
Lemma split_at_nl (a b x y : string) :
  count_nl a = 0 -> count_nl b = 0 ->
  a +:+ nl +:+ x = b +:+ nl +:+ y -> a = b /\ x = y.
Proof.
  revert b. induction a as [|c a IH]; intros [|c' b] Ha Hb H.
  - rewrite !append_nil_l in H. apply (inj (String.append nl)) in H. auto.
  - rewrite append_nil_l, append_cons in H.
    change (nl +:+ x) with (String "010"%char x) in H. injection H as <- _.
    cbn in Hb. discriminate Hb.
  - rewrite append_nil_l, append_cons in H.
    change (nl +:+ y) with (String "010"%char y) in H. injection H as -> _.
    cbn in Ha. discriminate Ha.
  - rewrite !append_cons in H. injection H as -> H.
    cbn [count_nl] in Ha, Hb.
    destruct (IH b) as [-> ->]; [lia | lia | exact H | auto].
Qed.

Lemma pretty_Z_no_nl (z : Z) : count_nl (pretty z) = 0.
Proof.
  destruct z as [|p|p]; [reflexivity| |].
  - exact (pretty_N_no_nl (N.pos p)).
  - change (pretty (Z.neg p)) with ("-" +:+ pretty (N.pos p)).
    now rewrite count_nl_app, pretty_N_no_nl.
Qed.

(** X9.  A Termination Record can be read back: two records whose
    timestamps hold no line break (as every timestamp the clock prints)
    are the same text only if they carry the same timestamp, the same
    return code and the same error output, absent or not. *)
Theorem termination_record_inj (ts ts' : string) (rc rc' : Z) (e e' : option string) :
  count_nl ts = 0 -> count_nl ts' = 0 ->
  termination_record ts rc e = termination_record ts' rc' e' ->
  ts = ts' /\ rc = rc' /\ e = e'.
Proof.
  intros Hts Hts' H. unfold termination_record in H.
  rewrite <- (append_assoc ts), <- (append_assoc ts') in H.
  rewrite <- (append_assoc "Return code: " (pretty rc)) in H.
  rewrite <- (append_assoc "Return code: " (pretty rc')) in H.
  apply split_at_nl in H as [H1 H2];
    [|rewrite count_nl_app, ?Hts, ?Hts'; reflexivity..].
  apply split_at_nl in H2 as [H2 H3];
    [|rewrite count_nl_app, pretty_Z_no_nl; reflexivity..].
  apply append_inj_r in H1.
  apply (inj (String.append "Return code: ")) in H2.
  apply (inj pretty) in H2.
  repeat split; try assumption.
  destruct e as [t|], e' as [t'|]; try reflexivity; try discriminate H3.
  apply (inj (String.append "Error output: ")) in H3.
  apply append_inj_r in H3. now subst.
Qed.

Lemma termination_record_inj_witness :
  "2024-03-09 07:05:02" = "2024-03-09 07:05:02" /\ 3%Z = 3%Z /\
  Some "boom" = Some "boom".
Proof.
  apply (termination_record_inj "2024-03-09 07:05:02" "2024-03-09 07:05:02" 3 3
           (Some "boom") (Some "boom")); reflexivity.
Defined.

(** ** The environment *)

(** X10.  Line 14 comes first and nothing undoes it: after every run,
    the one that fails to resolve its path included, [PYTHONUNBUFFERED] is
    ["1"] in the launcher's environment and every other variable is what
    it was. *)
Theorem environment_unbuffered (env : Env) (w : World) :
  environ (final env w) !! "PYTHONUNBUFFERED" = Some "1" /\
  forall k, k <> "PYTHONUNBUFFERED" -> environ (final env w) !! k = environ w !! k.
Proof.
  assert (H : environ (final env w) = <["PYTHONUNBUFFERED" := "1"]> (environ w)).
  { destruct (main_cases env w) as [(e & B & _)|(sp & el & w1 & Hs & B & S)].
    - now apply begun_environ in B.
    - rewrite (supervised_environ _ _ _ _ _ _ S). now apply begun_environ in B. }
  rewrite H. split; [apply lookup_insert_eq|].
  intros k Hk. now apply lookup_insert_ne.
Qed.

(** ** Plain error output *)



(** * Runs in which the launcher itself is hindered *)

(** The launcher's directory has a name that is not text: line 30 cannot
    encode the path, the exception leaves the script before the [try],
    and the startup log has one line. *)
Example untexted_directory_one_line :
  outcome env_untexted w_ready =
    Raise (PyException "'utf-8' codec can't encode characters") /\
  exit_status env_untexted (outcome env_untexted w_ready) = Some 1%Z /\
  lines (content (files (final env_untexted w_ready)) (log_file here_latin1)) =
    ["2024-03-09 07:05:00: Starting RebasedCode Git Sync Runner"] /\
  files (final env_untexted w_ready) !! error_log here_latin1 = None /\
  stdout_of (trace (final env_untexted w_ready)) = ["RebasedCodeGitSync" +:+ nl].
Proof. repeat split; vm_compute; reflexivity. Qed.

(** Where text files are ASCII the child's UTF-8 words cannot be written:
    the record stops after the return code and the handler reports the
    encoding error. *)
Example ascii_locale_error_text_lost :
  utf8_valid cafe_utf8 = true /\
  outcome env_ascii_locale w_ready = Raise (SystemExit 1) /\
  lines (content (files (final env_ascii_locale w_ready)) (error_log here_sync)) =
    ["2024-03-09 07:05:02: Git sync process terminated unexpectedly";
     "Return code: 1";
     "2024-03-09 07:05:03: Exception running git sync script: 'ascii' codec can't encode character '\xe9' in position 17: ordinal not in range(128)"].
Proof. repeat split; vm_compute; reflexivity. Qed.

(** In a Latin-1 locale they are written as other bytes than the child
    sent. *)
Example latin1_locale_other_bytes :
  outcome env_latin1_locale w_ready = Raise (SystemExit 1) /\
  lines (content (files (final env_latin1_locale w_ready)) (error_log here_sync)) =
    ["2024-03-09 07:05:02: Git sync process terminated unexpectedly";
     "Return code: 1";
     "Error output: " +:+ cafe_latin1] /\
  contains cafe_utf8
    (content (files (final env_latin1_locale w_ready)) (error_log here_sync)) = false.
Proof. repeat split; vm_compute; reflexivity. Qed.

(** The error log cannot be opened: line 46 raises, the handler runs and
    raises in its turn at line 55; the exception leaves the script, and
    nothing is recorded anywhere. *)
Example locked_error_log_no_record :
  outcome env_locked w_ready =
    Raise (PyException "[Errno 13] Permission denied: '/opt/sync/sync_error.log'") /\
  exit_status env_locked (outcome env_locked w_ready) = Some 1%Z /\
  files (final env_locked w_ready) !! error_log here_sync = None /\
  writes_to (error_log here_sync) (trace (final env_locked w_ready)) = [].
Proof. repeat split; vm_compute; reflexivity. Qed.
